(** * OSF storage addon: file-node tree, versions, checkout and tags

    A shallow embedding of [addons/osfstorage/models.py]: the classes
    [OsfStorageFileNode], [OsfStorageFile], [OsfStorageFolder] and
    [NodeSettings].  Database tables are finite maps keyed by primary key,
    objects are records, and a method that mutates [self] returns the new
    [self].  Persistence and indexing calls are recorded, in order, in the
    world's trace. *)

From Stdlib Require Import ZArith Ascii String.
From stdpp Require Import base option list strings gmap fin_maps.

Local Open Scope Z_scope.
Local Open Scope string_scope.
Local Open Scope list_scope.

(** ** Python built-ins used by the module *)

Module Py.

(** [seq[i]] for a list: negative indices count from the end, anything
    else out of range is an [IndexError] (here [None]). *)
Definition index {A} (l : list A) (i : Z) : option A :=
  let n := Z.of_nat (length l) in
  if bool_decide (0 <= i) then l !! Z.to_nat i
  else if bool_decide (- n <= i) then l !! Z.to_nat (n + i)
  else None.

(** [s.startswith('/')] and [s.endswith('/')]. *)
Definition starts_with_slash (s : string) : bool :=
  match s with
  | String c _ => bool_decide (c = "/"%char)
  | EmptyString => false
  end.

Fixpoint ends_with_slash (s : string) : bool :=
  match s with
  | EmptyString => false
  | String c EmptyString => bool_decide (c = "/"%char)
  | String _ s' => ends_with_slash s'
  end.

(** [s.lstrip('/')], [s.rstrip('/')] and [s.strip('/')]. *)
Fixpoint lstrip_slash (s : string) : string :=
  match s with
  | String c s' => if bool_decide (c = "/"%char) then lstrip_slash s' else s
  | EmptyString => EmptyString
  end.

Fixpoint rstrip_slash (s : string) : string :=
  match s with
  | EmptyString => EmptyString
  | String c s' =>
      match rstrip_slash s' with
      | EmptyString => if bool_decide (c = "/"%char) then EmptyString
                       else String c EmptyString
      | r => String c r
      end
  end.

Definition strip_slash (s : string) : string := rstrip_slash (lstrip_slash s).

(** One round of the loop of [posixpath.join]: [path] is the result so
    far, [b] the next component. *)
Definition join_step (path b : string) : string :=
  if starts_with_slash b then b
  else if bool_decide (path = "") || ends_with_slash path then path +:+ b
  else path +:+ "/" +:+ b.

(** ['/'.join(names)]. *)
Fixpoint slash_join (names : list string) : string :=
  match names with
  | [] => ""
  | [x] => x
  | x :: rest => x +:+ "/" +:+ slash_join rest
  end.

(** Decimal digits of a string, most significant first. *)
Definition digit_of (c : ascii) : option Z :=
  let n := Z.of_N (N_of_ascii c) in
  if bool_decide (48 <= n <= 57) then Some (n - 48) else None.

Fixpoint digits_value (acc : Z) (s : string) : option Z :=
  match s with
  | EmptyString => Some acc
  | String c s' =>
      match digit_of c with
      | Some d => digits_value (10 * acc + d) s'
      | None => None
      end
  end.

Definition is_space (c : ascii) : bool :=
  let n := N_of_ascii c in
  bool_decide (n = 32%N) || bool_decide (9 <= n <= 13)%N.

Fixpoint lstrip_space (s : string) : string :=
  match s with
  | String c s' => if is_space c then lstrip_space s' else s
  | EmptyString => EmptyString
  end.

Fixpoint rstrip_space (s : string) : string :=
  match s with
  | EmptyString => EmptyString
  | String c s' =>
      match rstrip_space s' with
      | EmptyString => if is_space c then EmptyString else String c EmptyString
      | r => String c r
      end
  end.

(** [int(s)] for a [str]: surrounding white space is dropped, an optional
    sign is followed by at least one decimal digit; anything else is a
    [ValueError] ([None]). *)
Definition int_of_string (s : string) : option Z :=
  match rstrip_space (lstrip_space s) with
  | EmptyString => None
  | String c rest =>
      if bool_decide (c = "-"%char) then
        match rest with
        | EmptyString => None
        | _ => Z.opp <$> digits_value 0 rest
        end
      else if bool_decide (c = "+"%char) then
        match rest with
        | EmptyString => None
        | _ => digits_value 0 rest
        end
      else digits_value 0 (String c rest)
  end.

End Py.

(** ** Exceptions and outcomes *)

Inductive PyVal :=
  | PyNone
  | PyInt (z : Z)
  | PyStr (s : string).

Inductive Exn :=
  | FileNodeCheckedOutError
  | VersionNotFoundError (version : PyVal)
  | NodeStateError
  | InvalidTagError
  | TagNotFoundError
  | AttributeError.

(** What a call produces: a value, a raised exception, or no answer within
    the given number of steps. *)
Inductive outcome (A : Type) :=
  | Ret (a : A)
  | Raise (e : Exn)
  | OutOfFuel.
Arguments Ret {A} a.
Arguments Raise {A} e.
Arguments OutOfFuel {A}.

(** ** Data model *)

Definition User := string.
Definition Location := gmap string string.
Definition Metadata := gmap string string.

Record FileVersion := mkFileVersion {
  identifier : Z;
  creator : User;
  location : Location;
  metadata : Metadata;
}.

Record FileNode := mkFileNode {
  _id : string;
  name : string;
  parent : option string;
  node : string;
  is_file : bool;
  checkout : option User;
  versions : list FileVersion;
  tags : list string;
  stored_path : string;
  stored_materialized_path : string;
}.

(** ** Version lookup *)

(** [int(version)] on the selectors a caller can pass. *)
Definition py_int (version : PyVal) : option Z :=
  match version with
  | PyNone => None
  | PyInt z => Some z
  | PyStr s => Py.int_of_string s
  end.

Definition get_version (self : FileNode) (version : PyVal) (required : bool)
  : outcome (option FileVersion) :=
  match version with
  | PyNone => Ret (last (versions self))
  | _ =>
      match py_int version ≫= λ n, Py.index (versions self) (n - 1) with
      | Some v => Ret (Some v)
      | None =>
          if required then Raise (VersionNotFoundError version) else Ret None
      end
  end.

Inductive Permission := READ | WRITE | ADMIN.

Global Instance Permission_eq_dec : EqDecision Permission.
Proof. solve_decision. Defined.

Inductive Action := CHECKED_OUT | CHECKED_IN | FILE_TAG_ADDED | FILE_TAG_REMOVED.

Global Instance Action_eq_dec : EqDecision Action.
Proof. solve_decision. Defined.

(** Values of a log entry's [params] dictionary. *)
Inductive Param :=
  | PNone
  | PStr (s : string)
  | PDict (d : list (string * string)).

Record NodeLog := mkNodeLog {
  action : Action;
  params : list (string * Param);
  auth : User;
}.

(** The project (an OSF [Node]) that owns a file tree. *)
Record ProjectNode := mkProjectNode {
  node_id : string;
  parent_id : option string;
  permissions : gmap string (list Permission);
  is_registration : bool;
  preprint_file : option string;
  _is_preprint_orphan : bool;
  logs : list NodeLog;
}.

Record TrashedFileNode := mkTrashedFileNode {
  trashed_id : string;
  trashed_name : string;
  trashed_parent : option string;
  trashed_node : string;
  trashed_is_file : bool;
  trashed_path : string;
}.

Record Guid := mkGuid {
  guid_id : string;
  referent : string;
}.

Record NodeSettings := mkNodeSettings {
  settings_id : string;
  owner : string;
  root_node : option string;
}.

(** Calls to collaborators, in the order the code makes them. *)
Inductive Event :=
  | EvSaveFileNode (n : FileNode)
  | EvSaveVersion (v : FileVersion)
  | EvSaveProject (p : string)
  | EvSaveSettings (s : NodeSettings)
  | EvSearchUpdate (file : string) (delete : bool)
  | EvTrash (t : TrashedFileNode)
  | EvRemoveFileNode (file : string).

Record World := mkWorld {
  nodes : gmap string FileNode;
  trash : gmap string TrashedFileNode;
  guids : list Guid;
  projects : gmap string ProjectNode;
  tag_table : gset string;
  addon_settings : gmap string NodeSettings;
  trace : list Event;
}.

Definition with_nodes (f : gmap string FileNode → gmap string FileNode) (w : World) : World :=
  mkWorld (f (nodes w)) (trash w) (guids w) (projects w) (tag_table w)
          (addon_settings w) (trace w).

Definition with_trash (f : gmap string TrashedFileNode → gmap string TrashedFileNode)
    (w : World) : World :=
  mkWorld (nodes w) (f (trash w)) (guids w) (projects w) (tag_table w)
          (addon_settings w) (trace w).

Definition with_projects (f : gmap string ProjectNode → gmap string ProjectNode)
    (w : World) : World :=
  mkWorld (nodes w) (trash w) (guids w) (f (projects w)) (tag_table w)
          (addon_settings w) (trace w).

Definition with_settings (f : gmap string NodeSettings → gmap string NodeSettings)
    (w : World) : World :=
  mkWorld (nodes w) (trash w) (guids w) (projects w) (tag_table w)
          (f (addon_settings w)) (trace w).

Definition record (e : Event) (w : World) : World :=
  mkWorld (nodes w) (trash w) (guids w) (projects w) (tag_table w)
          (addon_settings w) (trace w ++ [e]).

(** ** The state-and-exception monad of the methods *)

Definition M (A : Type) : Type := World → World * outcome A.

Global Instance M_ret : MRet M := λ A a w, (w, Ret a).

Global Instance M_bind : MBind M := λ A B f m w,
  match m w with
  | (w', Ret a) => f a w'
  | (w', Raise e) => (w', Raise e)
  | (w', OutOfFuel) => (w', OutOfFuel)
  end.

Definition raise {A} (e : Exn) : M A := λ w, (w, Raise e).
Definition gets {A} (f : World → A) : M A := λ w, (w, Ret (f w)).
Definition modify (f : World → World) : M unit := λ w, (f w, Ret tt).
Definition emit (e : Event) : M unit := modify (record e).

(** A bounded query that gave no answer stops the method. *)
Definition bounded {A} (q : World → option A) : M A := λ w,
  match q w with
  | Some a => (w, Ret a)
  | None => (w, OutOfFuel)
  end.

Definition lift {A} (o : outcome A) : M A := λ w, (w, o).

Definition when (b : bool) (m : M unit) : M unit := if b then m else mret tt.

Fixpoint for_each {A} (l : list A) (body : A → M unit) : M unit :=
  match l with
  | [] => mret tt
  | x :: l' => body x ;; for_each l' body
  end.

(** ** OsfStorageFileNode *)

(** [cls.load(_id)]: the live row with that primary key, if any. *)
Definition load (w : World) (pk : string) : option FileNode := nodes w !! pk.

(** [self.parent]: the row the foreign key points to. *)
Definition parent_of (w : World) (self : FileNode) : option FileNode :=
  parent self ≫= load w.

(** [self.children] of a folder: the live rows whose parent is [self]. *)
Definition children (w : World) (self : FileNode) : list FileNode :=
  filter (λ c, parent c = Some (_id self)) (map_to_list (nodes w)).*2.

(** [self.node]; a missing project makes every attribute access on it fail. *)
Definition self_node (self : FileNode) : M ProjectNode := λ w,
  match projects w !! node self with
  | Some p => (w, Ret p)
  | None => (w, Raise AttributeError)
  end.

Definition kind (self : FileNode) : string :=
  if is_file self then "file" else "folder".

(** The [path] property: built from the primary key. *)
Definition path (self : FileNode) : string :=
  "/" +:+ _id self +:+ (if is_file self then "" else "/").

(** [OsfStorageFileNode.is_checked_out]. *)
Definition node_is_checked_out (self : FileNode) : bool :=
  bool_decide (checkout self ≠ None).

(** The loop [for child in self.children: if child.is_checked_out: return True]
    followed by [return False]. *)
Fixpoint any_checked_out {A} (f : A → option bool) (l : list A) : option bool :=
  match l with
  | [] => Some false
  | x :: l' =>
      match f x with
      | Some true => Some true
      | Some false => any_checked_out f l'
      | None => None
      end
  end.

(** [OsfStorageFolder.is_checked_out]; [fuel] bounds the depth of the
    descent into sub-folders. *)
Fixpoint folder_is_checked_out (fuel : nat) (w : World) (self : FileNode)
  : option bool :=
  if checkout self is Some _ then Some true
  else
    any_checked_out
      (λ child,
         if is_file child then Some (node_is_checked_out child)
         else match fuel with
              | O => None
              | S fuel' => folder_is_checked_out fuel' w child
              end)
      (children w self).

(** [self.is_checked_out], dispatched on the class of [self]. *)
Definition is_checked_out (fuel : nat) (w : World) (self : FileNode) : option bool :=
  if is_file self then Some (node_is_checked_out self)
  else folder_is_checked_out fuel w self.

(** The generator [lineage()] of [materialized_path], collected in a list:
    [self] first, the root last; [fuel] bounds the number of parent links
    followed. *)
Fixpoint lineage (fuel : nat) (w : World) (current : FileNode)
  : option (list FileNode) :=
  match parent_of w current with
  | None => Some [current]
  | Some p =>
      match fuel with
      | O => None
      | S fuel' => (current ::.) <$> lineage fuel' w p
      end
  end.

Definition os_path_join (a : string) (p : list string) : string :=
  fold_left Py.join_step p a.

Definition materialized_path (fuel : nat) (w : World) (self : FileNode)
  : option string :=
  match parent_of w self with
  | None => Some "/"
  | Some _ =>
      l ← lineage fuel w self;
      match reverse (name <$> l) with
      | [] => None
      | a :: p =>
          let path := os_path_join a p in
          Some (if is_file self then "/" +:+ path else "/" +:+ path +:+ "/")
      end
  end.

Definition set_checkout (c : option User) (self : FileNode) : FileNode :=
  mkFileNode (_id self) (name self) (parent self) (node self) (is_file self)
             c (versions self) (tags self)
             (stored_path self) (stored_materialized_path self).

Definition set_versions (vs : list FileVersion) (self : FileNode) : FileNode :=
  mkFileNode (_id self) (name self) (parent self) (node self) (is_file self)
             (checkout self) vs (tags self)
             (stored_path self) (stored_materialized_path self).

Definition set_tags (ts : list string) (self : FileNode) : FileNode :=
  mkFileNode (_id self) (name self) (parent self) (node self) (is_file self)
             (checkout self) (versions self) ts
             (stored_path self) (stored_materialized_path self).

Definition set_location (nm : string) (p : option string) (self : FileNode) : FileNode :=
  mkFileNode (_id self) nm p (node self) (is_file self)
             (checkout self) (versions self) (tags self)
             (stored_path self) (stored_materialized_path self).

Definition clear_stored_paths (self : FileNode) : FileNode :=
  mkFileNode (_id self) (name self) (parent self) (node self) (is_file self)
             (checkout self) (versions self) (tags self) "" "".

(** Modelled from the spec: the base class [FileNode] (osf.models) is not
    part of these sources.  Its [save] writes the row of the tree table
    (id, name, parent_id, project_id, kind, checkout_user_id). *)
Definition base_save (self : FileNode) : M FileNode :=
  modify (with_nodes <[_id self := self]>) ;;
  emit (EvSaveFileNode self) ;;
  mret self.

(** [OsfStorageFileNode.save]. *)
Definition node_save (self : FileNode) : M FileNode :=
  base_save (clear_stored_paths self).

(** [OsfStorageFile.save]. *)
Definition file_save (self : FileNode) (skip_search : bool) : M FileNode :=
  ret ← node_save self;
  when (negb skip_search) (emit (EvSearchUpdate (_id self) false)) ;;
  mret ret.

(** [self.save()], dispatched on the class of [self]. *)
Definition save (self : FileNode) : M FileNode :=
  if is_file self then file_save self false else node_save self.

Definition add_project_log (entry : NodeLog) (p : ProjectNode) : ProjectNode :=
  mkProjectNode (node_id p) (parent_id p) (permissions p) (is_registration p)
                (preprint_file p) (_is_preprint_orphan p) (logs p ++ [entry]).

Definition mark_preprint_orphan (p : ProjectNode) : ProjectNode :=
  mkProjectNode (node_id p) (parent_id p) (permissions p) (is_registration p)
                (preprint_file p) true (logs p).

(** Modelled from the spec: the audit log sink
    [addLogEntry(projectId, action, params, actingUser)] of the owning
    project (osf.models, not part of these sources) appends one entry. *)
Definition add_log (project : string) (a : Action) (ps : list (string * Param))
    (user : User) : M unit :=
  modify (with_projects (alter (add_project_log (mkNodeLog a ps user)) project)).

Definition opt_param (o : option string) : Param :=
  match o with
  | Some s => PStr s
  | None => PNone
  end.

(** Modelled from the spec: the permission oracle
    [permissionsOf(user, project)]; [node.get_permissions(user)] and
    [node.permissions.get(user._id, [])] both read the project's
    permission table. *)
Definition get_permissions (p : ProjectNode) (user : User) : list Permission :=
  default [] (permissions p !! user).

(** The [params] dictionary of the log entry of [check_in_or_out]. *)
Definition checkout_log_params (self : FileNode) (project : ProjectNode)
    (mpath : string) : list (string * Param) :=
  [ ("kind", PStr (kind self));
    ("project", opt_param (parent_id project));
    ("node", PStr (node_id project));
    ("urls", PDict
       [ ("download", "/project/" +:+ node_id project +:+ "/files/"
                      +:+ "osfstorage" +:+ "/" +:+ _id self
                      +:+ "/?action=download");
         ("view", "/project/" +:+ node_id project +:+ "/files/"
                  +:+ "osfstorage" +:+ "/" +:+ _id self) ]);
    ("path", PStr mpath) ].

Definition check_in_or_out (fuel : nat) (self : FileNode) (user : User)
    (checkout_to : option User) (do_save : bool) : M FileNode :=
  checked_out ← bounded (λ w, is_checked_out fuel w self);
  project ← self_node self;
  if checked_out && bool_decide (checkout self ≠ Some user)
       && bool_decide (ADMIN ∉ default [] (permissions project !! user))
     || bool_decide (WRITE ∉ get_permissions project user)
  then raise FileNodeCheckedOutError
  else
    let action := if checkout_to is Some _ then CHECKED_OUT else CHECKED_IN in
    if checked_out && bool_decide (action = CHECKED_IN)
       || negb checked_out && bool_decide (action = CHECKED_OUT)
    then
      let self := set_checkout checkout_to self in
      mpath ← bounded (λ w, materialized_path fuel w self);
      add_log (node self) action (checkout_log_params self project mpath) user ;;
      if do_save then save self else mret self
    else mret self.

(** Modelled from the spec: [FileNode._create_trashed] of the base class
    (osf.models, not part of these sources).  A deleted node becomes a row
    of the trash table that keeps its parent linkage: the trashed parent
    when the deletion cascades from a folder, the live parent otherwise. *)
Definition create_trashed (self : FileNode) (new_parent : option TrashedFileNode)
  : M TrashedFileNode :=
  let trashed :=
    mkTrashedFileNode (_id self) (name self)
      (match new_parent with
       | Some t => Some (trashed_id t)
       | None => parent self
       end)
      (node self) (is_file self) (path self) in
  modify (with_trash <[_id self := trashed]>) ;;
  emit (EvTrash trashed) ;;
  mret trashed.

Definition remove_one (self : FileNode) : M unit :=
  modify (with_nodes (base.delete (_id self))) ;;
  emit (EvRemoveFileNode (_id self)).

(** Modelled from the spec: the base [FileNode.delete] and [Folder.delete]
    (osf.models, not part of these sources) turn the node into a trashed
    record and, for a folder, cascade to the children; [cascade] deletes
    one child, through the child's own class, with the new trashed record
    as its parent. *)
Definition base_delete (cascade : FileNode → TrashedFileNode → M unit)
    (self : FileNode) (new_parent : option TrashedFileNode) : M TrashedFileNode :=
  trashed ← create_trashed self new_parent;
  (if is_file self then mret tt
   else
     kids ← gets (λ w, children w self);
     for_each kids (λ child, cascade child trashed)) ;;
  remove_one self ;;
  mret trashed.

(** [OsfStorageFile.delete] (the search index update, for a file) followed
    by [OsfStorageFileNode.delete]. *)
Definition delete_with (cascade : FileNode → TrashedFileNode → M unit)
    (fuel : nat) (self : FileNode) (new_parent : option TrashedFileNode)
  : M TrashedFileNode :=
  when (is_file self) (emit (EvSearchUpdate (_id self) true)) ;;
  project ← self_node self;
  when (bool_decide (preprint_file project = Some (_id self)))
       (modify (with_projects (alter mark_preprint_orphan (node self))) ;;
        emit (EvSaveProject (node self))) ;;
  checked_out ← bounded (λ w, is_checked_out fuel w self);
  if (checked_out : bool) then raise FileNodeCheckedOutError
  else base_delete cascade self new_parent.

(** [self.delete(user, parent)]; [fuel] bounds the depth of the cascade and
    of the checkout query. *)
Fixpoint delete (fuel : nat) (self : FileNode) (user : option User)
    (new_parent : option TrashedFileNode) : M TrashedFileNode :=
  delete_with
    (λ child trashed,
       match fuel with
       | O => lift OutOfFuel
       | S fuel' => delete fuel' child user (Some trashed) ;; mret tt
       end)
    fuel self new_parent.

(** The world in which [delete] evaluates its checkout guard. *)
Definition at_delete_guard (self : FileNode) (project : ProjectNode) (w : World)
  : World :=
  let w := if is_file self then record (EvSearchUpdate (_id self) true) w else w in
  if bool_decide (preprint_file project = Some (_id self))
  then record (EvSaveProject (node self))
         (with_projects (alter mark_preprint_orphan (node self)) w)
  else w.

(** [name or self.name]. *)
Definition name_or (new_name : option string) (old : string) : string :=
  match new_name with
  | Some n => if bool_decide (n = "") then old else n
  | None => old
  end.

(** [OsfStorageFileNode.move_under].

    Modelled from the spec: the base [FileNode.move_under] (osf.models, not
    part of these sources) renames the node when a name is given, makes
    the destination its parent and persists it. *)
Definition move_under (fuel : nat) (self : FileNode) (destination_parent : FileNode)
    (new_name : option string) : M FileNode :=
  checked_out ← bounded (λ w, is_checked_out fuel w self);
  if (checked_out : bool) then raise FileNodeCheckedOutError
  else
    save (set_location (name_or new_name (name self))
                       (Some (_id destination_parent)) self).

(** ** OsfStorageFile *)

(** Modelled from the spec: [FileVersion.is_duplicate] (osf.models, not
    part of these sources): two versions are duplicates if their location
    descriptors match. *)
Definition is_duplicate (a b : FileVersion) : bool :=
  bool_decide (location a = location b).

(** Modelled from the spec: [FileVersion.update_metadata] (osf.models, not
    part of these sources) enriches the metadata mapping. *)
Definition update_metadata (v : FileVersion) (extra : Metadata) : FileVersion :=
  mkFileVersion (identifier v) (creator v) (location v) (extra ∪ metadata v).

(** [if metadata:] is false for [None] and for the empty dictionary. *)
Definition truthy_metadata (m : option Metadata) : option Metadata :=
  match m with
  | Some d => if bool_decide (d = ∅) then None else Some d
  | None => None
  end.

Section Collaborators.

(** The archive registry consulted by [FileVersion._find_matching_archive]
    and the primary-key generator of the object mapper. *)
Variable archive_match : World → FileVersion → option Metadata.
Variable new_object_id : World → string.

(** Modelled from the spec: [FileVersion._find_matching_archive]
    (osf.models, not part of these sources) is a best-effort lookup in a
    known archive registry; an unmatched version is left as it is, a
    matched one has its metadata enriched. *)
Definition _find_matching_archive (v : FileVersion) : M FileVersion :=
  gets (λ w, match archive_match w v with
             | Some extra => update_metadata v extra
             | None => v
             end).

(** The tail of [create_version], reached when the proposed version is
    not a duplicate of the latest one. *)
Definition store_version (self : FileNode) (version : FileVersion)
    (meta : option Metadata) : M (FileNode * FileVersion) :=
  let version := match truthy_metadata meta with
                 | Some m => update_metadata version m
                 | None => version
                 end in
  version ← _find_matching_archive version;
  emit (EvSaveVersion version) ;;
  self ← file_save (set_versions (versions self ++ [version]) self) false;
  mret (self, version).

Definition create_version (self : FileNode) (by_user : User) (loc : Location)
    (meta : option Metadata) : M (FileNode * FileVersion) :=
  latest_version ← lift (get_version self PyNone false);
  let version :=
    mkFileVersion (Z.of_nat (length (versions self)) + 1) by_user loc ∅ in
  match latest_version with
  | Some latest =>
      if is_duplicate latest version then mret (self, latest)
      else store_version self version meta
  | None => store_version self version meta
  end.

(** [NodeSettings.save]. *)
Definition settings_save (s : NodeSettings) : M unit :=
  modify (with_settings <[settings_id s := s]>) ;;
  emit (EvSaveSettings s).

(** [OsfStorageFolder(name='', node=owner)]: a fresh, parentless folder. *)
Definition new_folder (pk : string) (nm : string) (project : string) : FileNode :=
  mkFileNode pk nm None project false None [] [] "" "".

Definition on_add (self : NodeSettings) : M NodeSettings :=
  if root_node self is Some _ then mret self
  else
    settings_save self ;;
    pk ← gets new_object_id;
    root ← node_save (new_folder pk "" (owner self));
    let self := mkNodeSettings (settings_id self) (owner self) (Some (_id root)) in
    settings_save self ;;
    mret self.

(** [n] successive calls of [on_add] on the same settings object. *)
Fixpoint on_add_times (n : nat) (self : NodeSettings) : M NodeSettings :=
  match n with
  | O => mret self
  | S n' => self ← on_add self; on_add_times n' self
  end.

End Collaborators.

(** [OsfStorageFile.add_tag_log]. *)
Definition add_tag_log (fuel : nat) (self : FileNode) (a : Action) (tag : string)
    (user : User) : M unit :=
  project ← self_node self;
  mpath ← bounded (λ w, materialized_path fuel w self);
  add_log (node self) a
    [ ("parent_node", opt_param (parent_id project));
      ("node", PStr (node_id project));
      ("urls", PDict
         [ ("download", "/project/" +:+ node_id project
                        +:+ "/files/osfstorage/" +:+ _id self
                        +:+ "/?action=download");
           ("view", "/project/" +:+ node_id project
                    +:+ "/files/osfstorage/" +:+ _id self +:+ "/") ]);
      ("path", PStr mpath);
      ("tag", PStr tag) ]
    user.

(** Modelled from the spec: [Tag.load] (osf.models, not part of these
    sources) resolves a label in the tag registry. *)
Definition tag_load (w : World) (tag : string) : option string :=
  if bool_decide (tag ∈ tag_table w) then Some tag else None.

(** [list.remove(x)]: drops the first occurrence. *)
Fixpoint list_remove (x : string) (l : list string) : list string :=
  match l with
  | [] => []
  | y :: l' => if bool_decide (y = x) then l' else y :: list_remove x l'
  end.

Definition remove_tag (fuel : nat) (self : FileNode) (tag : string) (user : User)
    (do_save do_log : bool) : M (FileNode * bool) :=
  project ← self_node self;
  if is_registration project then raise NodeStateError
  else
    loaded ← gets (λ w, tag_load w tag);
    match loaded with
    | None => raise InvalidTagError
    | Some t =>
        if bool_decide (t ∉ tags self) then raise TagNotFoundError
        else
          let self := set_tags (list_remove t (tags self)) self in
          when do_log (add_tag_log fuel self FILE_TAG_REMOVED t user) ;;
          self ← (if do_save then file_save self false else mret self);
          mret (self, true)
    end.

(** ** Identifier collection *)

(** What [get_file_guids] resolves a path to. *)
Inductive FileObj :=
  | Live (n : FileNode)
  | Trashed (t : TrashedFileNode).

Definition obj_is_file (o : FileObj) : bool :=
  match o with
  | Live n => is_file n
  | Trashed t => trashed_is_file t
  end.

Definition obj_id (o : FileObj) : string :=
  match o with
  | Live n => _id n
  | Trashed t => trashed_id t
  end.

(** [cls.load(path)], then [TrashedFileNode.load(path)] when that found
    nothing. *)
Definition resolve (w : World) (pk : string) : option FileObj :=
  match load w pk with
  | Some n => Some (Live n)
  | None => Trashed <$> trash w !! pk
  end.

(** The [path] of each child of a folder: live children through the tree
    relation, trashed children through their parent linkage. *)
Definition child_paths (w : World) (o : FileObj) : list string :=
  match o with
  | Trashed t =>
      trashed_path <$>
        filter (λ c, trashed_parent c = Some (trashed_id t)) (map_to_list (trash w)).*2
  | Live n => path <$> children w n
  end.

(** [guids.extend(...)] over the children, stopping at the first call that
    does not return. *)
Fixpoint extend_all (f : string → outcome (list string)) (paths : list string)
    (acc : list string) : outcome (list string) :=
  match paths with
  | [] => Ret acc
  | p :: rest =>
      match f p with
      | Ret found => extend_all f rest (acc ++ found)
      | Raise e => Raise e
      | OutOfFuel => OutOfFuel
      end
  end.

(** [OsfStorageFileNode.get_file_guids]; [fuel] bounds the depth of the
    recursion into folders. *)
Fixpoint get_file_guids (fuel : nat) (w : World) (materialized : string)
    (provider : string) : outcome (list string) :=
  let pk := Py.strip_slash materialized in
  match resolve w pk with
  | None => Raise AttributeError
  | Some file_obj =>
      if negb (obj_is_file file_obj) then
        extend_all
          (λ p, match fuel with
                | O => OutOfFuel
                | S fuel' => get_file_guids fuel' w p provider
                end)
          (child_paths w file_obj) []
      else
        match filter (λ g, referent g = obj_id file_obj) (guids w) with
        | g :: _ => Ret [guid_id g]
        | [] => Ret []
        end
  end.

(** ** Further methods of the module *)

(** Truth value of a selector: [None], [0] and the empty string are false. *)
Definition py_truthy (v : PyVal) : bool :=
  match v with
  | PyNone => false
  | PyInt z => negb (bool_decide (z = 0))
  | PyStr s => negb (bool_decide (s = ""))
  end.

(** [a or b]. *)
Definition py_or (a b : PyVal) : PyVal := if py_truthy a then a else b.

(** [OsfStorageFile.touch]: [get_version] turns the [ValueError] of [int]
    into absence itself, so the handler of [touch] has nothing to catch. *)
Definition touch (self : FileNode) (bearer : string) (version revision : PyVal)
  : outcome (option FileVersion) :=
  get_version self (py_or revision version) false.

(** [OsfStorageFile.history]. *)
Definition history (self : FileNode) : list Metadata :=
  metadata <$> versions self.

(** Values of a serialized node. *)
Inductive SerVal :=
  | SNone
  | SInt (z : Z)
  | SStr (s : string).

Definition opt_ser (o : option string) : SerVal :=
  match o with
  | Some s => SStr s
  | None => SNone
  end.

Definition with_tag_table (f : gset string → gset string) (w : World) : World :=
  mkWorld (nodes w) (trash w) (guids w) (projects w) (f (tag_table w))
          (addon_settings w) (trace w).

(** [OsfStorageFile.add_tag].  The tag is looked up, created when missing,
    and saved in either case: afterwards the registry holds it. *)
Definition add_tag (fuel : nat) (self : FileNode) (tag : string) (user : User)
    (do_save do_log : bool) : M (FileNode * bool) :=
  if bool_decide (tag ∉ tags self) then
    project ← self_node self;
    if negb (is_registration project) then
      modify (with_tag_table (λ t, {[ tag ]} ∪ t)) ;;
      let self := set_tags (tags self ++ [tag]) self in
      when do_log (add_tag_log fuel self FILE_TAG_ADDED tag user) ;;
      self ← (if do_save then file_save self false else mret self);
      mret (self, true)
    else mret (self, false)
  else mret (self, false).

Section Wrapped.

(** The serialization of the base class and the constructor [cls.create]
    (osf.models, not part of these sources). *)
Variable base_serialize : FileNode → gmap string SerVal.
Variable create : ProjectNode → string → FileNode.

(** [OsfStorageFile.serialize]. *)
Definition file_serialize (fuel : nat) (w : World) (self : FileNode)
    (include_full : bool) (version : PyVal) : outcome (gmap string SerVal) :=
  let ret := base_serialize self in
  match (if include_full
         then (λ p, <["fullPath" := SStr p]> ret) <$> materialized_path fuel w self
         else Some ret) with
  | None => OutOfFuel
  | Some ret =>
      match get_version self version false with
      | Ret version =>
          Ret (<["version" := SInt (Z.of_nat (length (versions self)))]>
               (<["md5" := match version with
                           | Some v => opt_ser (metadata v !! "md5")
                           | None => SNone
                           end]>
               (<["sha256" := match version with
                              | Some v => opt_ser (metadata v !! "sha256")
                              | None => SNone
                              end]> ret)))
      | Raise e => Raise e
      | OutOfFuel => OutOfFuel
      end
  end.

(** [OsfStorageFolder.serialize]. *)
Definition folder_serialize (fuel : nat) (w : World) (self : FileNode)
    (include_full : bool) : option (gmap string SerVal) :=
  let ret := base_serialize self in
  if include_full
  then (λ p, <["fullPath" := SStr p]> ret) <$> materialized_path fuel w self
  else Some ret.

(** [OsfStorageFileNode.get_or_create]. *)
Definition get_or_create (w : World) (project : ProjectNode) (at_path : string)
  : outcome FileNode :=
  match load w (Py.strip_slash at_path) with
  | Some inst =>
      match projects w !! node inst with
      | Some owner_project =>
          if bool_decide (node_id owner_project = node_id project) then Ret inst
          else Ret (create project at_path)
      | None => Raise AttributeError
      end
  | None => Ret (create project at_path)
  end.

End Wrapped.

(** ** Vocabulary of the properties *)

(** A meaningful transition of [check_in_or_out]: checking in a node that
    reports itself checked out, or checking out one that does not. *)
Definition meaningful (checked_out : bool) (checkout_to : option User) : Prop :=
  (checked_out = true ∧ checkout_to = None) ∨
  (checked_out = false ∧ is_Some checkout_to).

(** A computation that never adds a row to the tree table. *)
Definition shrinks {A} (m : M A) : Prop := ∀ w, nodes (m w).1 ⊆ nodes w.

(** [ancestry w n l]: following parent links from [n] reaches a parentless
    node, and [l] lists the nodes met, that root first and [n] last. *)
Inductive ancestry (w : World) : FileNode → list FileNode → Prop :=
  | ancestry_root n :
      parent_of w n = None → ancestry w n [n]
  | ancestry_child n p l :
      parent_of w n = Some p → ancestry w p l → ancestry w n (l ++ [n]).

(** Names that [os.path.join] joins with single slashes: none begins with
    a slash, and all but the last are non-empty and do not end with one. *)
Fixpoint joinable (names : list string) : bool :=
  match names with
  | [] => true
  | [x] => negb (Py.starts_with_slash x)
  | x :: rest =>
      negb (Py.starts_with_slash x) && negb (bool_decide (x = ""))
      && negb (Py.ends_with_slash x) && joinable rest
  end.

(** The version sequence is densely numbered from 1. *)
Definition dense (vs : list FileVersion) : Prop :=
  ∀ i v, vs !! i = Some v → identifier v = Z.of_nat i + 1.

(** Every row of the tree table is stored under its own primary key. *)
Definition keyed (w : World) : Prop :=
  ∀ pk n, nodes w !! pk = Some n → _id n = pk.

(** A primary key that [strip('/')] leaves alone. *)
Definition plain_id (pk : string) : bool :=
  negb (Py.starts_with_slash pk) && negb (Py.ends_with_slash pk).

(** The identifier the registry gives for a file: the first one registered
    for it, if any. *)
Definition first_guid (w : World) (pk : string) : list string :=
  match filter (λ g, referent g = pk) (guids w) with
  | g :: _ => [guid_id g]
  | [] => []
  end.

(** Two objects for the same place in the tree: same key, name, parent,
    project and kind. *)
Definition same_place (a b : FileNode) : Prop :=
  _id a = _id b ∧ name a = name b ∧ parent a = parent b ∧
  node a = node b ∧ is_file a = is_file b.

(** Every row of the tree table belongs to a project of the project
    table. *)
Definition owned (w : World) : Prop :=
  ∀ pk n, nodes w !! pk = Some n → is_Some (projects w !! node n).

(** [settled w0 w]: the world [w] has no row that [w0] lacks and the same
    projects, by key. *)
Definition settled (w0 w : World) : Prop :=
  nodes w ⊆ nodes w0 ∧
  ∀ key, is_Some (projects w !! key) ↔ is_Some (projects w0 !! key).

(** Whether one of a list of nodes carries a checkout. *)
Definition some_checkout (l : list FileNode) : bool :=
  existsb (λ c, bool_decide (checkout c ≠ None)) l.


(** ** A sample project

    One project with a small tree, used to run the methods on concrete
    objects:
<<
      /            root folder  "r"
      /docs/       folder       "d"
      /docs/a.txt  file         "f"   (checked out by alice)
>>
    alice may read and write, bob is an administrator, carol only reads. *)

Module Sample.

Definition alice : User := "alice".
Definition bob : User := "bob".
Definition carol : User := "carol".
Definition dave : User := "dave".

Definition project : ProjectNode :=
  mkProjectNode "p1" None
    {[ alice := [READ; WRITE]; dave := [READ; WRITE];
       bob := [READ; WRITE; ADMIN]; carol := [READ] ]}
    false None false [].

Definition root : FileNode := mkFileNode "r" "" None "p1" false None [] [] "" "".
Definition docs : FileNode :=
  mkFileNode "d" "docs" (Some "r") "p1" false None [] [] "" "".

Definition loc_a : Location :=
  {[ "service" := "cloud"; "bucket" := "resource"; "object" := "1615307" ]}.
Definition loc_b : Location :=
  {[ "service" := "cloud"; "bucket" := "resource"; "object" := "2718281" ]}.

Definition v1 : FileVersion := mkFileVersion 1 alice loc_a ∅.

Definition a_txt : FileNode :=
  mkFileNode "f" "a.txt" (Some "d") "p1" true (Some alice) [v1] ["draft"] "" "".

(** The same file, not checked out. *)
Definition a_txt_free : FileNode := set_checkout None a_txt.

Definition world_of (files : list FileNode) (p : ProjectNode) : World :=
  mkWorld (list_to_map ((λ n, (_id n, n)) <$> files)) ∅
          [mkGuid "g1" "f"] {[ node_id p := p ]} {[ "draft" ]} ∅ [].

Definition world : World := world_of [root; docs; a_txt] project.
Definition world_free : World := world_of [root; docs; a_txt_free] project.

(** The project once [a.txt] is its preprint's primary file. *)
Definition preprint_project : ProjectNode :=
  mkProjectNode "p1" None (permissions project) false (Some "f") false [].
Definition preprint_world : World := world_of [root; docs; a_txt] preprint_project.

(** The project frozen as a registration. *)
Definition registration : ProjectNode :=
  mkProjectNode "p1" None (permissions project) true None false [].
Definition registered_world : World := world_of [root; docs; a_txt] registration.

(** A file whose name begins with a slash, under [/docs/]. *)
Definition slash_file : FileNode :=
  mkFileNode "s" "/notes" (Some "d") "p1" true None [] [] "" "".
Definition slash_world : World := world_of [root; docs; slash_file] project.

Definition settings : NodeSettings := mkNodeSettings "s1" "p1" None.

Definition no_archive : World → FileVersion → option Metadata := λ _ _, None.
Definition fixed_id : World → string := λ _, "r".

End Sample.

(** Further sample objects: a folder holding two files, a node that is its
    own parent, and versions numbered 1 and 2. *)

Module Shelf.

Definition v2 : FileVersion :=
  mkFileVersion 2 Sample.bob Sample.loc_b {[ "md5" := "9e107d9d" ]}.

Definition b_txt : FileNode :=
  mkFileNode "g" "b.txt" (Some "d") "p1" true None [Sample.v1; v2] [] "" "".

Definition world : World :=
  mkWorld (list_to_map ((λ n, (_id n, n)) <$>
             [Sample.root; Sample.docs; Sample.a_txt; b_txt])) ∅
          [mkGuid "g1" "f"; mkGuid "g2" "g"; mkGuid "g3" "g"]
          {[ "p1" := Sample.project ]} {[ "draft" ]} ∅ [].

Definition loop : FileNode :=
  mkFileNode "x" "loop" (Some "x") "p1" false None [] [] "" "".

Definition loop_world : World := Sample.world_of [loop] Sample.project.

Definition no_base : FileNode → gmap string SerVal := λ _, ∅.

Definition fresh : ProjectNode → string → FileNode :=
  λ p at_path, mkFileNode "new" "" None (node_id p) true None [] [] at_path "".

End Shelf.

(** * Properties *)

(** ** Running the monad *)

Ltac run :=
  cbv beta iota delta
    [mbind M_bind mret M_ret raise gets modify emit bounded lift when].

(** ** Python built-ins *)

Lemma index_in_range {A} (l : list A) (i : nat) :
  Py.index l (Z.of_nat i) = l !! i.
Proof.
  unfold Py.index. rewrite bool_decide_eq_true_2 by lia.
  by rewrite Nat2Z.id.
Qed.

Lemma index_above_range {A} (l : list A) (i : Z) :
  Z.of_nat (length l) <= i → Py.index l i = None.
Proof.
  intros Hi. unfold Py.index. rewrite bool_decide_eq_true_2 by lia.
  apply lookup_ge_None. lia.
Qed.

Lemma index_minus_one {A} (l : list A) : Py.index l (-1) = last l.
Proof.
  unfold Py.index. rewrite bool_decide_eq_false_2 by lia.
  destruct l as [|x l] using rev_ind.
  - reflexivity.
  - rewrite last_snoc, length_app. simpl.
    rewrite bool_decide_eq_true_2 by lia.
    replace (Z.to_nat (Z.of_nat (length l + 1) + -1)) with (length l) by lia.
    by apply list_lookup_middle.
Qed.

(** ** Version lookup *)

Lemma get_version_latest self required :
  get_version self PyNone required = Ret (last (versions self)).
Proof. reflexivity. Qed.

Lemma get_version_in_range self (n : nat) v required :
  versions self !! n = Some v →
  get_version self (PyInt (Z.of_nat n + 1)) required = Ret (Some v).
Proof.
  intros Hv. unfold get_version. simpl.
  replace (Z.of_nat n + 1 - 1) with (Z.of_nat n) by lia.
  by rewrite index_in_range, Hv.
Qed.

Lemma get_version_above_range self (n : Z) required :
  Z.of_nat (length (versions self)) < n →
  get_version self (PyInt n) required =
    if required then Raise (VersionNotFoundError (PyInt n)) else Ret None.
Proof.
  intros Hn. unfold get_version. simpl.
  by rewrite index_above_range by lia.
Qed.

Lemma get_version_not_a_number self s required :
  Py.int_of_string s = None →
  get_version self (PyStr s) required =
    if required then Raise (VersionNotFoundError (PyStr s)) else Ret None.
Proof. intros Hs. unfold get_version. simpl. by rewrite Hs. Qed.

(** Selector 0 is index -1, which Python reads from the end of the list. *)
Lemma get_version_zero self required :
  get_version self (PyInt 0) required =
    match last (versions self) with
    | Some v => Ret (Some v)
    | None => if required then Raise (VersionNotFoundError (PyInt 0)) else Ret None
    end.
Proof.
  unfold get_version. simpl. by rewrite index_minus_one.
Qed.

(** C2: on a file with one version, [get_version(0)] and
    [get_version(0, required=True)] both return that version: the selector
    0 lies outside [1, 1], yet the lookup neither reports absence nor raises
    [VersionNotFoundError]. *)
Theorem get_version_zero_returns_latest :
  get_version Sample.a_txt (PyInt 0) false = Ret (Some Sample.v1) ∧
  get_version Sample.a_txt (PyInt 0) true = Ret (Some Sample.v1).
Proof. split; reflexivity. Qed.

(** ** Identifier collection *)

(** C8: when the path resolves to neither a live node nor a trashed record,
    [get_file_guids] does not return the empty list: it fails with an
    [AttributeError] on the missing object, whatever the recursion bound. *)
Theorem get_file_guids_missing_path fuel w materialized provider :
  resolve w (Py.strip_slash materialized) = None →
  get_file_guids fuel w materialized provider = Raise AttributeError.
Proof.
  intros Hmissing. destruct fuel; simpl; by rewrite Hmissing.
Qed.

Lemma get_file_guids_missing_path_witness :
  resolve Sample.world (Py.strip_slash "/zz/") = None ∧
  get_file_guids 3 Sample.world "/zz/" "osfstorage" = Raise AttributeError.
Proof.
  split; [vm_compute; reflexivity|].
  apply get_file_guids_missing_path. vm_compute. reflexivity.
Defined.

(** On an existing file the registry is consulted and no error occurs. *)
Lemma get_file_guids_sample :
  get_file_guids 3 Sample.world "/r/" "osfstorage" = Ret ["g1"].
Proof. vm_compute. reflexivity. Qed.

(** ** Version creation *)

Lemma update_metadata_location v extra :
  location (update_metadata v extra) = location v.
Proof. reflexivity. Qed.

Lemma truthy_metadata_location v meta :
  location (match truthy_metadata meta with
            | Some m => update_metadata v m
            | None => v
            end) = location v.
Proof. by destruct (truthy_metadata meta). Qed.

Section VersionCreation.

Variable archive_match : World → FileVersion → option Metadata.

(** What [store_version] does: one version saved, appended and the file
    saved and re-indexed. *)
Lemma store_version_spec self version meta w :
  ∃ v,
    location v = location version ∧
    identifier v = identifier version ∧
    creator v = creator version ∧
    let self1 := clear_stored_paths (set_versions (versions self ++ [v]) self) in
    store_version archive_match self version meta w =
      (mkWorld (<[_id self := self1]> (nodes w)) (trash w) (guids w) (projects w)
               (tag_table w) (addon_settings w)
               (trace w ++ [EvSaveVersion v; EvSaveFileNode self1;
                            EvSearchUpdate (_id self) false]),
       Ret (self1, v)).
Proof.
  unfold store_version, _find_matching_archive, file_save, node_save, base_save.
  run. simpl.
  set (v0 := match truthy_metadata meta with
             | Some m => update_metadata version m
             | None => version
             end).
  assert (Hv0 : location v0 = location version ∧
                identifier v0 = identifier version ∧
                creator v0 = creator version).
  { subst v0. by destruct (truthy_metadata meta). }
  destruct Hv0 as (Hl & Hi & Hc).
  destruct (archive_match w v0) as [extra|].
  - exists (update_metadata v0 extra). simpl.
    repeat split; try done.
    unfold record, with_nodes; simpl. by rewrite <- !app_assoc.
  - exists v0. repeat split; try done.
    unfold record, with_nodes; simpl. by rewrite <- !app_assoc.
Qed.

(** C1: [create_version] always returns.  When the latest version has the
    proposed location it is returned as it is, the file and the world
    (tables and trace of saves) are unchanged.  Otherwise a version with
    identifier [count + 1] and the proposed location is saved and appended.
    In both cases a second call with the same location, whoever the
    creator and whatever the metadata, returns the same version and
    changes nothing, so a file without versions ends with exactly one. *)
Theorem create_version_idempotent self by_user loc meta w :
  ∃ w1 self1 v1,
    create_version archive_match self by_user loc meta w = (w1, Ret (self1, v1)) ∧
    (∀ latest, last (versions self) = Some latest → location latest = loc →
       v1 = latest ∧ self1 = self ∧ w1 = w) ∧
    ((∀ latest, last (versions self) = Some latest → location latest ≠ loc) →
       identifier v1 = Z.of_nat (length (versions self)) + 1 ∧
       location v1 = loc ∧ creator v1 = by_user ∧
       versions self1 = versions self ++ [v1] ∧
       nodes w1 !! _id self = Some self1 ∧
       trace w1 = trace w ++ [EvSaveVersion v1; EvSaveFileNode self1;
                              EvSearchUpdate (_id self) false]) ∧
    (∀ by_user' meta',
       create_version archive_match self1 by_user' loc meta' w1
       = (w1, Ret (self1, v1))) ∧
    (versions self = [] →
       versions self1 = [v1] ∧
       ∀ by_user' meta' w2 self2 v2,
         create_version archive_match self1 by_user' loc meta' w1
         = (w2, Ret (self2, v2)) →
         versions self2 = [v1]).
Proof.
  set (proposed := mkFileVersion (Z.of_nat (length (versions self)) + 1) by_user loc ∅).
  assert (Hagain : ∀ self1 v1 w1,
            last (versions self1) = Some v1 → location v1 = loc →
            ∀ by_user' meta',
              create_version archive_match self1 by_user' loc meta' w1
              = (w1, Ret (self1, v1))).
  { intros self1 v1 w1 Hlast Hloc by_user' meta'.
    unfold create_version. run. simpl. rewrite Hlast.
    unfold is_duplicate. simpl. by rewrite bool_decide_eq_true_2. }
  assert (Hfresh : (∀ latest, last (versions self) = Some latest →
                              is_duplicate latest proposed = false) →
            ∃ v1, location v1 = loc ∧ identifier v1 = identifier proposed ∧
                  creator v1 = by_user ∧
              let self1 := clear_stored_paths (set_versions (versions self ++ [v1]) self) in
              create_version archive_match self by_user loc meta w =
                (mkWorld (<[_id self := self1]> (nodes w)) (trash w) (guids w)
                   (projects w) (tag_table w) (addon_settings w)
                   (trace w ++ [EvSaveVersion v1; EvSaveFileNode self1;
                                EvSearchUpdate (_id self) false]),
                 Ret (self1, v1))).
  { intros Hnodup.
    destruct (store_version_spec self proposed meta w) as (v & Hl & Hi & Hc & Hrun).
    exists v. repeat split; try done.
    unfold create_version. run. simpl. fold proposed.
    destruct (last (versions self)) as [latest|] eqn:Hlast; [|exact Hrun].
    rewrite (Hnodup latest eq_refl). exact Hrun. }
  destruct (last (versions self)) as [latest|] eqn:Hlast.
  - destruct (decide (location latest = loc)) as [Hdup|Hdiff].
    + exists w, self, latest. split; [|split; [|split; [|split]]].
      * by apply Hagain.
      * intros l [= <-] _. done.
      * intros Hno. by destruct (Hno latest eq_refl).
      * by apply Hagain.
      * intros Hnil. rewrite Hnil in Hlast. discriminate.
    + destruct Hfresh as (v1 & Hl & Hi & Hc & Hrun).
      { intros l [= <-]. unfold is_duplicate. simpl.
        by rewrite bool_decide_eq_false_2. }
      eexists _, _, v1. split; [exact Hrun|]. simpl.
      split; [|split; [|split]].
      * intros l [= <-] Heq. done.
      * intros _. repeat split; try done. by rewrite lookup_insert_eq.
      * apply Hagain; [|done]. simpl. by rewrite last_snoc.
      * intros Hnil. rewrite Hnil in Hlast. discriminate.
  - destruct Hfresh as (v1 & Hl & Hi & Hc & Hrun); [done|].
    eexists _, _, v1. split; [exact Hrun|]. simpl.
    split; [|split; [|split]].
    + intros l [=].
    + intros _. repeat split; try done. by rewrite lookup_insert_eq.
    + apply Hagain; [|done]. simpl. by rewrite last_snoc.
    + intros Hnil. rewrite Hnil. split; [done|].
      intros by_user' meta' w2 self2 v2 Hsecond.
      erewrite Hagain in Hsecond; [| |exact Hl].
      * injection Hsecond as _ Hself _. by rewrite <- Hself.
      * done.
Qed.

End VersionCreation.

(** The scenario of the specification: location A gives version 1, A again
    still version 1, then location B gives version 2. *)
Lemma create_version_scenario :
  let file := set_versions [] Sample.a_txt_free in
  ∃ w1 f1 v1 w2 f2 w3 f3 v3,
    create_version Sample.no_archive file Sample.alice Sample.loc_a None Sample.world
      = (w1, Ret (f1, v1)) ∧
    create_version Sample.no_archive f1 Sample.bob Sample.loc_a None w1
      = (w2, Ret (f2, v1)) ∧
    create_version Sample.no_archive f2 Sample.alice Sample.loc_b None w2
      = (w3, Ret (f3, v3)) ∧
    identifier v1 = 1 ∧ identifier v3 = 2 ∧
    w2 = w1 ∧ versions f2 = [v1] ∧ versions f3 = [v1; v3].
Proof.
  simpl. do 8 eexists.
  split; [vm_compute; reflexivity|].
  split; [vm_compute; reflexivity|].
  split; [vm_compute; reflexivity|].
  repeat split.
Qed.

(** ** Queries read the tree table only *)

Lemma any_checked_out_ext {A} (f g : A → option bool) l :
  (∀ x, f x = g x) → any_checked_out f l = any_checked_out g l.
Proof.
  intros Hfg. induction l as [|x l IH]; simpl; [done|].
  by rewrite Hfg, IH.
Qed.

Lemma children_nodes w w' self :
  nodes w = nodes w' → children w self = children w' self.
Proof. unfold children. by intros ->. Qed.

Lemma folder_is_checked_out_nodes fuel w w' self :
  nodes w = nodes w' →
  folder_is_checked_out fuel w self = folder_is_checked_out fuel w' self.
Proof.
  intros Hn. revert self.
  induction fuel as [|fuel IH]; intros self; simpl;
    rewrite (children_nodes w w' self Hn); [done|].
  destruct (checkout self); [done|].
  apply any_checked_out_ext. intros child. by rewrite IH.
Qed.

Lemma is_checked_out_nodes fuel w w' self :
  nodes w = nodes w' → is_checked_out fuel w self = is_checked_out fuel w' self.
Proof.
  intros Hn. unfold is_checked_out.
  destruct (is_file self); [done|]. by apply folder_is_checked_out_nodes.
Qed.

Lemma parent_of_nodes w w' self self' :
  nodes w = nodes w' → parent self = parent self' →
  parent_of w self = parent_of w' self'.
Proof. unfold parent_of, load. by intros -> ->. Qed.

Lemma lineage_nodes fuel w w' current :
  nodes w = nodes w' → lineage fuel w current = lineage fuel w' current.
Proof.
  intros Hn. revert current.
  induction fuel as [|fuel IH]; intros current; simpl;
    rewrite (parent_of_nodes w w' current current Hn eq_refl); [done|].
  destruct (parent_of w' current); [|done]. by rewrite IH.
Qed.

(** The materialized path depends on the node's name, parent and kind, and
    on the tree table. *)
Lemma materialized_path_ext fuel w w' self self' :
  nodes w = nodes w' → name self = name self' → parent self = parent self' →
  is_file self = is_file self' →
  materialized_path fuel w self = materialized_path fuel w' self'.
Proof.
  intros Hn Hname Hparent Hfile. unfold materialized_path.
  rewrite (parent_of_nodes w w' self self' Hn Hparent), Hfile.
  destruct (parent_of w' self') as [p|] eqn:Hp; [|done].
  assert (Hl : (fmap (M:=list) name <$> lineage fuel w self)
               = (fmap (M:=list) name <$> lineage fuel w' self')).
  { destruct fuel as [|fuel]; simpl;
      rewrite (parent_of_nodes w w' self self' Hn Hparent), Hp; [done|].
    rewrite (lineage_nodes fuel w w' p Hn).
    destruct (lineage fuel w' p); simpl; [|done]. by rewrite Hname. }
  destruct (lineage fuel w self) as [l|], (lineage fuel w' self') as [l'|];
    simpl in *; try done.
  by injection Hl as ->.
Qed.

(** ** Tags *)

Lemma logs_add_project_log entry p :
  logs (add_project_log entry p) = logs p ++ [entry].
Proof. reflexivity. Qed.

Lemma permissions_add_project_log entry p :
  permissions (add_project_log entry p) = permissions p.
Proof. reflexivity. Qed.

Section RemoveTag.

Variables (fuel : nat) (self : FileNode) (tag : string) (user : User).
Variables (do_save do_log : bool) (w : World) (project : ProjectNode).
Hypothesis Hproject : projects w !! node self = Some project.

Lemma remove_tag_registration :
  is_registration project = true →
  remove_tag fuel self tag user do_save do_log w = (w, Raise NodeStateError).
Proof.
  intros Hreg. unfold remove_tag, self_node. run. by rewrite Hproject, Hreg.
Qed.

Lemma remove_tag_unresolved :
  is_registration project = false → tag ∉ tag_table w →
  remove_tag fuel self tag user do_save do_log w = (w, Raise InvalidTagError).
Proof.
  intros Hreg Htag. unfold remove_tag, self_node, tag_load. run.
  by rewrite Hproject, Hreg, bool_decide_eq_false_2.
Qed.

Lemma remove_tag_absent :
  is_registration project = false → tag ∈ tag_table w → tag ∉ tags self →
  remove_tag fuel self tag user do_save do_log w = (w, Raise TagNotFoundError).
Proof.
  intros Hreg Htag Hnot. unfold remove_tag, self_node, tag_load. run.
  by rewrite Hproject, Hreg, !bool_decide_eq_true_2.
Qed.

Lemma remove_tag_detaches :
  is_registration project = false → tag ∈ tag_table w → tag ∈ tags self →
  (do_log = true → is_Some (materialized_path fuel w self)) →
  ∃ w' self' project',
    remove_tag fuel self tag user do_save do_log w = (w', Ret (self', true)) ∧
    tags self' = list_remove tag (tags self) ∧
    projects w' !! node self = Some project' ∧
    length (logs project') = (length (logs project) + if do_log then 1 else 0)%nat ∧
    (do_save = true → nodes w' !! _id self = Some self').
Proof.
  intros Hreg Htag Hin Hpath.
  unfold remove_tag, self_node, tag_load. run.
  rewrite Hproject, Hreg, bool_decide_eq_true_2 by done.
  rewrite bool_decide_eq_false_2 by (by intros ?).
  set (self1 := set_tags (list_remove tag (tags self)) self).
  destruct do_log.
  - destruct (Hpath eq_refl) as [mp Hmp].
    unfold add_tag_log, self_node, add_log. run.
    change (node self1) with (node self). rewrite Hproject.
    rewrite (materialized_path_ext fuel w w self1 self) by done.
    rewrite Hmp.
    destruct do_save.
    + unfold file_save, node_save, base_save. run. simpl.
      eexists _, _, _. split; [reflexivity|]. simpl.
      split; [done|]. rewrite lookup_alter_eq, Hproject. simpl.
      split; [done|]. rewrite logs_add_project_log, length_app. simpl.
      split; [done|]. intros _. by rewrite lookup_insert_eq.
    + eexists _, _, _. split; [reflexivity|]. simpl.
      split; [done|]. rewrite lookup_alter_eq, Hproject. simpl.
      split; [done|]. rewrite logs_add_project_log, length_app. simpl.
      split; done.
  - destruct do_save.
    + unfold file_save, node_save, base_save. run. simpl.
      eexists _, _, _. split; [reflexivity|]. simpl.
      split; [done|]. split; [exact Hproject|].
      split; [lia|]. intros _. by rewrite lookup_insert_eq.
    + eexists _, _, _. split; [reflexivity|]. simpl.
      split; [done|]. split; [exact Hproject|]. split; [lia|done].
Qed.

End RemoveTag.

(** C7 (amended): on a registration [remove_tag] raises [NodeStateError]
    whatever the tag.  Otherwise the tag is resolved first: an unresolvable
    tag raises [InvalidTagError] (also when the file does not carry it), a
    resolvable tag the file lacks raises [TagNotFoundError], and a
    resolvable tag the file carries is detached, logged and saved as
    requested, and the call returns true. *)
Theorem remove_tag_cases fuel self tag user do_save do_log w project :
  projects w !! node self = Some project →
  (do_log = true → is_Some (materialized_path fuel w self)) →
  (is_registration project = true →
     remove_tag fuel self tag user do_save do_log w = (w, Raise NodeStateError)) ∧
  (is_registration project = false →
     (tag ∉ tag_table w →
        remove_tag fuel self tag user do_save do_log w = (w, Raise InvalidTagError)) ∧
     (tag ∈ tag_table w → tag ∉ tags self →
        remove_tag fuel self tag user do_save do_log w = (w, Raise TagNotFoundError)) ∧
     (tag ∈ tag_table w → tag ∈ tags self →
        ∃ w' self' project',
          remove_tag fuel self tag user do_save do_log w = (w', Ret (self', true)) ∧
          tags self' = list_remove tag (tags self) ∧
          projects w' !! node self = Some project' ∧
          length (logs project')
            = (length (logs project) + if do_log then 1 else 0)%nat ∧
          (do_save = true → nodes w' !! _id self = Some self'))).
Proof.
  intros Hproject Hpath. split; [|intros Hreg; split; [|split]].
  - intros Hreg. eapply remove_tag_registration; eauto.
  - intros Htag. eapply remove_tag_unresolved; eauto.
  - intros Htag Hnot. eapply remove_tag_absent; eauto.
  - intros Htag Hin. eapply remove_tag_detaches; eauto.
Qed.

Lemma remove_tag_cases_witness :
  projects Sample.world !! node Sample.a_txt = Some Sample.project ∧
  ∃ w' self',
    remove_tag 3 Sample.a_txt "draft" Sample.alice true true Sample.world
      = (w', Ret (self', true)) ∧
    tags self' = [].
Proof.
  assert (Hp : projects Sample.world !! node Sample.a_txt = Some Sample.project)
    by (vm_compute; reflexivity).
  split; [exact Hp|].
  destruct (remove_tag_cases 3 Sample.a_txt "draft" Sample.alice true true
              Sample.world Sample.project Hp) as [_ Hrest].
  { intros _. eexists. vm_compute. reflexivity. }
  destruct (Hrest eq_refl) as (_ & _ & Hdetach).
  assert (Hknown : "draft" ∈ tag_table Sample.world).
  { change ("draft" ∈ ({[ "draft" ]} : gset string)). by apply elem_of_singleton_2. }
  assert (Hcarried : "draft" ∈ tags Sample.a_txt) by apply list_elem_of_here.
  destruct (Hdetach Hknown Hcarried) as (w' & self' & _ & Hrun & Htags & _).
  exists w', self'. split; [exact Hrun|]. rewrite Htags. reflexivity.
Defined.

(** An unresolvable tag that the file does not carry: the error is
    [InvalidTagError], not [TagNotFoundError]. *)
Lemma remove_tag_unresolved_lacking :
  is_registration Sample.project = false ∧
  ("ghost" ∉ tags Sample.a_txt) ∧
  (remove_tag 3 Sample.a_txt "ghost" Sample.alice true true Sample.world).2
    = Raise InvalidTagError ∧
  (remove_tag 3 Sample.a_txt "ghost" Sample.alice true true Sample.world).2
    ≠ Raise TagNotFoundError.
Proof.
  split; [reflexivity|].
  split; [intros Hin%list_elem_of_singleton; discriminate|].
  assert (Hrun : (remove_tag 3 Sample.a_txt "ghost" Sample.alice true true
                    Sample.world).2 = Raise InvalidTagError)
    by (vm_compute; reflexivity).
  split; [exact Hrun|]. rewrite Hrun. discriminate.
Qed.

(** ** NodeSettings *)

Section OnAdd.

Variable new_object_id : World → string.

Lemma on_add_existing_root self w :
  is_Some (root_node self) → on_add new_object_id self w = (w, Ret self).
Proof. intros [r Hr]. unfold on_add. by rewrite Hr. Qed.

Lemma on_add_times_existing_root n self w :
  is_Some (root_node self) → on_add_times new_object_id n self w = (w, Ret self).
Proof.
  intros Hroot. induction n as [|n IH]; simpl; [done|].
  run. by rewrite on_add_existing_root.
Qed.

(** C9: [on_add] always returns.  With a root it changes neither the
    settings nor the world.  Without one it saves the settings, saves a
    new parentless folder named with the empty string and owned by the
    settings' project, attaches it and saves the settings again, in that
    order.  Any further calls change nothing, so after one call or more
    exactly one root folder has been created. *)
Theorem on_add_idempotent self w :
  ∃ w1 self1,
    on_add new_object_id self w = (w1, Ret self1) ∧
    (is_Some (root_node self) → w1 = w ∧ self1 = self) ∧
    (root_node self = None →
       ∃ root,
         name root = "" ∧ is_file root = false ∧ parent root = None ∧
         node root = owner self ∧
         root_node self1 = Some (_id root) ∧
         owner self1 = owner self ∧ settings_id self1 = settings_id self ∧
         nodes w1 !! _id root = Some root ∧
         addon_settings w1 !! settings_id self = Some self1 ∧
         trace w1 = trace w ++ [EvSaveSettings self; EvSaveFileNode root;
                                EvSaveSettings self1]) ∧
    on_add new_object_id self1 w1 = (w1, Ret self1) ∧
    (∀ n, on_add_times new_object_id n self1 w1 = (w1, Ret self1)) ∧
    (∀ n, on_add_times new_object_id (S n) self w = (w1, Ret self1)).
Proof.
  destruct (root_node self) as [r|] eqn:Hroot.
  - assert (Hsome : is_Some (root_node self)) by (by rewrite Hroot).
    exists w, self. split; [by apply on_add_existing_root|].
    split; [done|]. split; [done|].
    split; [by apply on_add_existing_root|].
    split; [intros n; by apply on_add_times_existing_root|].
    intros n. simpl. run. rewrite on_add_existing_root by done.
    by apply on_add_times_existing_root.
  - assert (Hrun : ∃ w1 root,
              let self1 := mkNodeSettings (settings_id self) (owner self)
                                          (Some (_id root)) in
              on_add new_object_id self w = (w1, Ret self1) ∧
              root = new_folder (_id root) "" (owner self) ∧
              nodes w1 !! _id root = Some root ∧
              addon_settings w1 !! settings_id self = Some self1 ∧
              trace w1 = trace w ++ [EvSaveSettings self; EvSaveFileNode root;
                                     EvSaveSettings self1]).
    { unfold on_add, settings_save, node_save, base_save. rewrite Hroot.
      run. simpl. eexists _, (new_folder _ "" (owner self)). simpl.
      split; [reflexivity|]. split; [reflexivity|].
      unfold record, with_settings, with_nodes. simpl.
      rewrite !lookup_insert_eq. split; [done|]. split; [done|].
      by rewrite <- !app_assoc. }
    destruct Hrun as (w1 & root & Hrun & Hshape & Hnodes & Hsettings & Htrace).
    set (self1 := mkNodeSettings (settings_id self) (owner self) (Some (_id root))).
    assert (Hsome : is_Some (root_node self1)) by (by eexists).
    exists w1, self1. split; [exact Hrun|].
    split; [intros [? [=]]|].
    split.
    { intros _. exists root. rewrite Hshape at 1 2 3 4. by repeat split. }
    split; [by apply on_add_existing_root|].
    split; [intros n; by apply on_add_times_existing_root|].
    intros n. simpl. run. fold self1 in Hrun. rewrite Hrun.
    by apply on_add_times_existing_root.
Qed.

End OnAdd.

(** Three calls on the sample settings: one folder saved. *)
Lemma on_add_sample :
  ∃ w1 self1,
    on_add_times Sample.fixed_id 3 Sample.settings Sample.world = (w1, Ret self1) ∧
    root_node self1 = Some "r" ∧
    trace w1 = [EvSaveSettings Sample.settings;
                EvSaveFileNode (new_folder "r" "" "p1");
                EvSaveSettings self1].
Proof. eexists _, _. split; [vm_compute; reflexivity|]. by split. Qed.

(** ** Deleting and moving *)

Lemma any_checked_out_false {A} (f : A → option bool) l :
  any_checked_out f l = Some false ↔ Forall (λ x, f x = Some false) l.
Proof.
  induction l as [|x l IH]; simpl.
  - split; [constructor|done].
  - destruct (f x) as [[]|] eqn:Hx.
    + split; [done|]. intros [Hf _]%Forall_cons_1. congruence.
    + rewrite IH. split; [by constructor|]. by intros [_ ?]%Forall_cons_1.
    + split; [done|]. intros [Hf _]%Forall_cons_1. congruence.
Qed.

Lemma elem_of_children w self child :
  child ∈ children w self ↔
  parent child = Some (_id self) ∧ ∃ pk, nodes w !! pk = Some child.
Proof.
  unfold children. rewrite list_elem_of_filter, list_elem_of_fmap.
  split.
  - intros [Hp ([pk c] & -> & Hin)]. split; [done|].
    exists pk. by apply elem_of_map_to_list.
  - intros [Hp [pk Hin]]. split; [done|].
    exists (pk, child). split; [done|]. by apply elem_of_map_to_list.
Qed.

(** A folder that does not report itself checked out still does not once
    rows have been removed from the tree table. *)
Lemma folder_is_checked_out_weaken fuel w w' self :
  nodes w' ⊆ nodes w →
  folder_is_checked_out fuel w self = Some false →
  folder_is_checked_out fuel w' self = Some false.
Proof.
  intros Hsub. revert self.
  induction fuel as [|fuel IH]; intros self; simpl;
    (destruct (checkout self); [done|]);
    rewrite !any_checked_out_false, !Forall_forall;
    intros Hall child [Hp [pk Hin]]%elem_of_children;
    (assert (Hchild : child ∈ children w self)
       by (apply elem_of_children; split; [done|];
           exists pk; by eapply lookup_weaken));
    specialize (Hall child Hchild); simpl in *;
    destruct (is_file child); try done.
  by apply IH.
Qed.

Lemma is_checked_out_weaken fuel w w' self :
  nodes w' ⊆ nodes w →
  is_checked_out fuel w self = Some false →
  is_checked_out fuel w' self = Some false.
Proof.
  unfold is_checked_out. intros Hsub.
  destruct (is_file self); [done|]. by apply folder_is_checked_out_weaken.
Qed.

Lemma delete_unfold fuel self user new_parent :
  delete fuel self user new_parent =
  delete_with
    (λ child trashed,
       match fuel with
       | O => lift OutOfFuel
       | S fuel' => delete fuel' child user (Some trashed) ;; mret tt
       end)
    fuel self new_parent.
Proof. by destruct fuel. Qed.

Lemma nodes_at_delete_guard self project w :
  nodes (at_delete_guard self project w) = nodes w.
Proof.
  unfold at_delete_guard.
  by destruct (is_file self), (bool_decide _).
Qed.

(** [delete] up to its guard. *)
Lemma delete_with_guard cascade fuel self new_parent w project b :
  projects w !! node self = Some project →
  is_checked_out fuel w self = Some b →
  delete_with cascade fuel self new_parent w =
    if b then (at_delete_guard self project w, Raise FileNodeCheckedOutError)
    else base_delete cascade self new_parent (at_delete_guard self project w).
Proof.
  intros Hproject Hb.
  assert (Hguard : is_checked_out fuel (at_delete_guard self project w) self = Some b).
  { rewrite <- Hb. apply is_checked_out_nodes, nodes_at_delete_guard. }
  unfold delete_with, at_delete_guard in *. unfold self_node. run.
  destruct (is_file self) eqn:Hfile; simpl;
    rewrite Hproject;
    destruct (bool_decide (preprint_file project = Some (_id self))); simpl;
    simpl in Hguard; rewrite Hguard; by destruct b.
Qed.

Lemma shrinks_bind {A B} (m : M A) (f : A → M B) :
  shrinks m → (∀ a, shrinks (f a)) → shrinks (m ≫= f).
Proof.
  intros Hm Hf w. specialize (Hm w). unfold mbind, M_bind.
  destruct (m w) as [w' [a|e|]]; simpl in *; [|done..].
  etrans; [apply Hf|done].
Qed.

Lemma shrinks_same {A} (m : M A) :
  (∀ w, nodes (m w).1 = nodes w) → shrinks m.
Proof. intros Hm w. by rewrite Hm. Qed.

Lemma shrinks_for_each {A} (l : list A) body :
  (∀ x, shrinks (body x)) → shrinks (for_each l body).
Proof.
  intros Hbody. induction l as [|x l IH]; simpl.
  - by apply shrinks_same.
  - apply shrinks_bind; [apply Hbody|done].
Qed.

Lemma shrinks_base_delete cascade self new_parent :
  (∀ child trashed, shrinks (cascade child trashed)) →
  shrinks (base_delete cascade self new_parent).
Proof.
  intros Hc. unfold base_delete.
  apply shrinks_bind; [by apply shrinks_same|]. intros trashed.
  apply shrinks_bind.
  { destruct (is_file self); [by apply shrinks_same|].
    apply shrinks_bind; [by apply shrinks_same|]. intros kids.
    by apply shrinks_for_each. }
  intros _. apply shrinks_bind; [|intros; by apply shrinks_same].
  intros w. unfold remove_one. run. simpl. apply delete_subseteq.
Qed.

Lemma shrinks_delete_with cascade fuel self new_parent :
  (∀ child trashed, shrinks (cascade child trashed)) →
  shrinks (delete_with cascade fuel self new_parent).
Proof.
  intros Hc. unfold delete_with.
  apply shrinks_bind.
  { destruct (is_file self); by apply shrinks_same. }
  intros _. apply shrinks_bind.
  { apply shrinks_same. intros w. unfold self_node.
    by destruct (projects w !! node self). }
  intros project. apply shrinks_bind.
  { destruct (bool_decide _); by apply shrinks_same. }
  intros _. apply shrinks_bind.
  { apply shrinks_same. intros w. unfold bounded.
    by destruct (is_checked_out fuel w self). }
  intros [|]; [by apply shrinks_same|]. by apply shrinks_base_delete.
Qed.

Lemma shrinks_delete fuel self user new_parent :
  shrinks (delete fuel self user new_parent).
Proof.
  revert self new_parent.
  induction fuel as [|fuel IH]; intros self new_parent;
    rewrite delete_unfold; apply shrinks_delete_with; intros child trashed.
  - by apply shrinks_same.
  - apply shrinks_bind; [apply IH|]. intros _. by apply shrinks_same.
Qed.

(** A loop none of whose rounds raises the checkout conflict does not raise
    it either. *)
Lemma for_each_no_conflict {A} (l : list A) body w0 :
  (∀ x, x ∈ l → shrinks (body x)) →
  (∀ x w, x ∈ l → nodes w ⊆ nodes w0 →
          (body x w).2 ≠ Raise FileNodeCheckedOutError) →
  ∀ w, nodes w ⊆ nodes w0 →
       (for_each l body w).2 ≠ Raise FileNodeCheckedOutError.
Proof.
  intros Hshrink Hcalm.
  induction l as [|x l IH]; intros w Hw; simpl; [done|].
  unfold mbind, M_bind.
  pose proof (Hcalm x w (list_elem_of_here _ _) Hw) as Hx.
  pose proof (Hshrink x (list_elem_of_here _ _) w) as Hsx.
  destruct (body x w) as [w' [[]|e|]]; simpl in *; [|done..].
  apply IH.
  - intros y Hy. apply Hshrink. by apply list_elem_of_further.
  - intros y w'' Hy. apply Hcalm. by apply list_elem_of_further.
  - by etrans.
Qed.

Lemma delete_with_no_project cascade fuel self new_parent w :
  projects w !! node self = None →
  (delete_with cascade fuel self new_parent w).2 = Raise AttributeError.
Proof.
  intros Hnone. unfold delete_with, self_node. run.
  destruct (is_file self); simpl; by rewrite Hnone.
Qed.

Lemma base_delete_no_conflict cascade self new_parent w0 w :
  nodes w = nodes w0 →
  (is_file self = false → ∀ child trashed,
     child ∈ children w0 self → shrinks (cascade child trashed)) →
  (is_file self = false → ∀ child trashed w',
     child ∈ children w0 self → nodes w' ⊆ nodes w0 →
     (cascade child trashed w').2 ≠ Raise FileNodeCheckedOutError) →
  (base_delete cascade self new_parent w).2 ≠ Raise FileNodeCheckedOutError.
Proof.
  intros Hw Hshrink Hcalm.
  unfold base_delete, create_trashed, remove_one. run. simpl.
  destruct (is_file self); simpl; [done|].
  specialize (Hshrink eq_refl). specialize (Hcalm eq_refl).
  match goal with
  | |- context [for_each ?l ?body ?w1] =>
      pose proof (for_each_no_conflict l body w0) as Hloop;
      assert (Hl : l = children w0 self) by (by apply children_nodes);
      assert (Hw1 : nodes w1 ⊆ nodes w0) by (simpl; by rewrite Hw);
      destruct (for_each l body w1) as [w2 [[]|e|]] eqn:Hrun
  end; simpl; try done.
  intros [= ->].
  eapply Hloop; [| |exact Hw1|by rewrite Hrun].
  - intros x Hx. apply Hshrink. by rewrite <- Hl.
  - intros x w' Hx Hw'. apply Hcalm; [by rewrite <- Hl|done].
Qed.

(** A node that does not report itself checked out is deleted without a
    checkout conflict, at any depth of the cascade. *)
Lemma delete_no_conflict fuel self user new_parent w :
  is_checked_out fuel w self = Some false →
  (delete fuel self user new_parent w).2 ≠ Raise FileNodeCheckedOutError.
Proof.
  revert self new_parent w.
  induction fuel as [|fuel IH]; intros self new_parent w Hfree;
    rewrite delete_unfold;
    (destruct (projects w !! node self) as [project|] eqn:Hproject;
       [|by rewrite delete_with_no_project]);
    rewrite (delete_with_guard _ _ _ _ _ project false Hproject Hfree);
    apply (base_delete_no_conflict _ _ _ w);
    try apply nodes_at_delete_guard.
  - intros _ child trashed _. by apply shrinks_same.
  - done.
  - intros _ child trashed _. apply shrinks_bind; [apply shrinks_delete|].
    intros _. by apply shrinks_same.
  - intros Hfolder child trashed w' Hchild Hsub. unfold mbind, M_bind.
    destruct (delete fuel child user _ w') as [w3 [t|e|]] eqn:Hdel;
      simpl; try done.
    intros [= ->]. eapply (IH child _ w'); [|by rewrite Hdel].
    apply (is_checked_out_weaken fuel w w'); [done|].
    unfold is_checked_out in Hfree. rewrite Hfolder in Hfree.
    simpl in Hfree. destruct (checkout self); [done|].
    apply any_checked_out_false in Hfree.
    rewrite Forall_forall in Hfree. by apply Hfree.
Qed.

Lemma move_under_guard fuel self destination_parent new_name w b :
  is_checked_out fuel w self = Some b →
  move_under fuel self destination_parent new_name w =
    if b then (w, Raise FileNodeCheckedOutError)
    else save (set_location (name_or new_name (name self))
                            (Some (_id destination_parent)) self) w.
Proof.
  intros Hb. unfold move_under. run. rewrite Hb. by destruct b.
Qed.

Lemma save_returns self w :
  ∃ w', save self w = (w', Ret (clear_stored_paths self)) ∧
        nodes w' !! _id self = Some (clear_stored_paths self) ∧
        projects w' = projects w.
Proof.
  unfold save, file_save, node_save, base_save. run.
  destruct (is_file self); simpl; eexists; (split; [reflexivity|]);
    simpl; by rewrite lookup_insert_eq.
Qed.

(** C10: deleting the checked-out primary file of the project's preprint
    raises the checkout conflict, and by then the project's orphan flag has
    been set and the project saved (after the search index update, for a
    file); the tree and trash tables are as before, so the node is not
    deleted. *)
Theorem delete_preprint_checked_out fuel self user new_parent w project :
  projects w !! node self = Some project →
  preprint_file project = Some (_id self) →
  is_checked_out fuel w self = Some true →
  ∃ w',
    delete fuel self user new_parent w = (w', Raise FileNodeCheckedOutError) ∧
    projects w' !! node self = Some (mark_preprint_orphan project) ∧
    _is_preprint_orphan (mark_preprint_orphan project) = true ∧
    trace w' = trace w
               ++ (if is_file self then [EvSearchUpdate (_id self) true] else [])
               ++ [EvSaveProject (node self)] ∧
    nodes w' = nodes w ∧ trash w' = trash w.
Proof.
  intros Hproject Hpreprint Hout.
  exists (at_delete_guard self project w).
  rewrite delete_unfold.
  rewrite (delete_with_guard _ _ _ _ _ project true Hproject Hout).
  split; [done|]. unfold at_delete_guard.
  rewrite bool_decide_eq_true_2 by done.
  destruct (is_file self); simpl; rewrite lookup_alter_eq, Hproject; simpl;
    repeat split; by rewrite <- ?app_assoc.
Qed.

Lemma delete_preprint_checked_out_witness :
  projects Sample.preprint_world !! node Sample.a_txt = Some Sample.preprint_project ∧
  ∃ w',
    delete 3 Sample.a_txt (Some Sample.bob) None Sample.preprint_world
      = (w', Raise FileNodeCheckedOutError) ∧
    (_is_preprint_orphan <$> projects w' !! "p1") = Some true ∧
    trace w' = [EvSearchUpdate "f" true; EvSaveProject "p1"] ∧
    nodes w' !! "f" = Some Sample.a_txt.
Proof.
  assert (Hp : projects Sample.preprint_world !! node Sample.a_txt
               = Some Sample.preprint_project) by (vm_compute; reflexivity).
  split; [exact Hp|].
  destruct (delete_preprint_checked_out 3 Sample.a_txt (Some Sample.bob) None
              Sample.preprint_world Sample.preprint_project Hp eq_refl eq_refl)
    as (w' & Hrun & Hproj & _ & Htrace & Hnodes & _).
  exists w'. split; [exact Hrun|].
  split; [exact (f_equal (fmap _is_preprint_orphan) Hproj)|].
  split; [exact Htrace|].
  rewrite Hnodes. vm_compute. reflexivity.
Defined.

Lemma rows_of_list_to_map (files : list FileNode) pk n :
  (list_to_map ((λ n, (_id n, n)) <$> files) : gmap string FileNode) !! pk = Some n →
  _id n = pk ∧ n ∈ files.
Proof.
  intros Hin%elem_of_list_to_map_2.
  apply list_elem_of_fmap in Hin as (row & [= -> ->] & Hrow). done.
Qed.

(** More fuel does not turn a folder that reports itself free into one
    that does not answer. *)
Lemma folder_is_checked_out_more_fuel fuel w self :
  folder_is_checked_out fuel w self = Some false →
  folder_is_checked_out (S fuel) w self = Some false.
Proof.
  revert self. induction fuel as [|fuel IH]; intros self.
  - simpl. destruct (checkout self); [done|].
    rewrite !any_checked_out_false, !Forall_forall.
    intros Hall child Hchild. specialize (Hall child Hchild). simpl in *.
    by destruct (is_file child).
  - intros Hfree.
    change (folder_is_checked_out (S (S fuel)) w self)
      with (if checkout self is Some _ then Some true
            else any_checked_out
                   (λ child, if is_file child then Some (node_is_checked_out child)
                             else folder_is_checked_out (S fuel) w child)
                   (children w self)).
    change (folder_is_checked_out (S fuel) w self)
      with (if checkout self is Some _ then Some true
            else any_checked_out
                   (λ child, if is_file child then Some (node_is_checked_out child)
                             else folder_is_checked_out fuel w child)
                   (children w self)) in Hfree.
    destruct (checkout self); [done|].
    revert Hfree. rewrite !any_checked_out_false, !Forall_forall.
    intros Hall child Hchild. specialize (Hall child Hchild). simpl in *.
    destruct (is_file child); [done|]. by apply IH.
Qed.

Lemma is_checked_out_more_fuel fuel w self :
  is_checked_out fuel w self = Some false →
  is_checked_out (S fuel) w self = Some false.
Proof.
  unfold is_checked_out. destruct (is_file self); [done|].
  apply folder_is_checked_out_more_fuel.
Qed.

Lemma settled_refl w : settled w w.
Proof. by split. Qed.

Lemma settled_trans w0 w1 w2 : settled w0 w1 → settled w1 w2 → settled w0 w2.
Proof.
  intros [Hn1 Hp1] [Hn2 Hp2]. split; [by etrans|].
  intros key. by rewrite Hp2, Hp1.
Qed.

Lemma settled_at_delete_guard self project w :
  settled w (at_delete_guard self project w).
Proof.
  split; [by rewrite nodes_at_delete_guard|].
  intros key. unfold at_delete_guard.
  destruct (is_file self), (bool_decide _); simpl;
    by rewrite ?lookup_alter_is_Some.
Qed.

Lemma owned_settled w0 w : owned w0 → settled w0 w → owned w.
Proof.
  intros Howned [Hnodes Hkeys] pk n Hn. apply Hkeys.
  apply (Howned pk). by eapply lookup_weaken.
Qed.

(** A loop all of whose rounds succeed succeeds. *)
Lemma for_each_succeeds {A} (l : list A) body w0 :
  (∀ x w, x ∈ l → settled w0 w →
          ∃ w', body x w = (w', Ret tt) ∧ settled w0 w') →
  ∀ w, settled w0 w → ∃ w', for_each l body w = (w', Ret tt) ∧ settled w0 w'.
Proof.
  induction l as [|x l IH]; intros Hbody w Hw; simpl.
  - by exists w.
  - destruct (Hbody x w (list_elem_of_here _ _) Hw) as (w1 & Hrun & Hw1).
    unfold mbind, M_bind. rewrite Hrun.
    apply IH; [|done]. intros y w' Hy. apply Hbody. by apply list_elem_of_further.
Qed.

(** The base class's delete succeeds when the cascade does on every child. *)
Lemma base_delete_succeeds cascade self new_parent w0 w :
  settled w0 w →
  (is_file self = false →
   ∀ child trashed w', child ∈ children w self → settled w0 w' →
     ∃ w'', cascade child trashed w' = (w'', Ret tt) ∧ settled w0 w'') →
  ∃ w' trashed,
    base_delete cascade self new_parent w = (w', Ret trashed) ∧
    trashed_id trashed = _id self ∧ trashed_name trashed = name self ∧
    settled w0 w' ∧ nodes w' !! _id self = None.
Proof.
  intros Hw Hcascade.
  unfold base_delete, create_trashed, remove_one. run. simpl.
  destruct (is_file self); simpl.
  - eexists _, _. split; [reflexivity|]. simpl.
    split; [done|]. split; [done|]. split; [|by rewrite lookup_delete_eq].
    destruct Hw as [Hn Hk]. split; [|done]. simpl.
    etrans; [apply delete_subseteq|done].
  - match goal with
    | |- context [for_each ?l ?body ?w1] =>
        destruct (for_each_succeeds l body w0) with (w := w1)
          as (w2 & Hrun & [Hn2 Hk2])
    end.
    + intros child w' Hchild Hw'. apply (Hcascade eq_refl); [|done].
      by rewrite (children_nodes w _ self) by done.
    + destruct Hw as [Hn Hk]. by split.
    + rewrite Hrun. simpl. eexists _, _. split; [reflexivity|]. simpl.
      split; [done|]. split; [done|]. split; [|by rewrite lookup_delete_eq].
      split; [|done]. simpl. etrans; [apply delete_subseteq|done].
Qed.

(** A file that is not checked out is deleted with any fuel. *)
Lemma delete_file_succeeds fuel self user new_parent w :
  is_Some (projects w !! node self) →
  is_file self = true → checkout self = None →
  ∃ w' trashed,
    delete fuel self user new_parent w = (w', Ret trashed) ∧
    trashed_id trashed = _id self ∧ trashed_name trashed = name self ∧
    settled w w' ∧ nodes w' !! _id self = None.
Proof.
  intros [project Hproject] Hfile Hfree.
  rewrite delete_unfold.
  rewrite (delete_with_guard _ fuel self new_parent w project false Hproject).
  - apply base_delete_succeeds; [|by rewrite Hfile].
    apply settled_at_delete_guard.
  - unfold is_checked_out, node_is_checked_out. rewrite Hfile, Hfree.
    by rewrite bool_decide_eq_false_2 by (by intros ?).
Qed.

(** What the cascade needs to know of a child of a folder that reports
    itself free: its project, and that it reports itself free too. *)
Lemma child_of_free_folder fuel w w' self child :
  owned w → settled w w' →
  is_file self = false →
  folder_is_checked_out fuel w self = Some false →
  child ∈ children w self →
  is_Some (projects w' !! node child) ∧
  (if is_file child then checkout child = None
   else match fuel with
        | O => False
        | S fuel' => is_checked_out fuel' w' child = Some false
        end).
Proof.
  intros Howned [Hnodes Hkeys] Hfolder Hfree Hchild.
  assert (Hall : (if is_file child then Some (node_is_checked_out child)
                  else match fuel with
                       | O => None
                       | S fuel' => folder_is_checked_out fuel' w child
                       end) = Some false).
  { destruct fuel; simpl in Hfree; (destruct (checkout self); [done|]);
      apply any_checked_out_false in Hfree;
      rewrite Forall_forall in Hfree; exact (Hfree child Hchild). }
  apply elem_of_children in Hchild as [_ [pk Hpk]].
  split; [apply Hkeys; by apply (Howned pk)|].
  destruct (is_file child) eqn:Hkind.
  - injection Hall as Hall. unfold node_is_checked_out in Hall.
    apply bool_decide_eq_false in Hall. destruct (checkout child); [|done].
    by destruct Hall.
  - destruct fuel as [|fuel']; [done|].
    unfold is_checked_out. rewrite Hkind.
    by apply (folder_is_checked_out_weaken fuel' w w').
Qed.

(** A node that does not report itself checked out within [fuel] levels is
    deleted, with its descendants, within one level more, provided every
    row of the tree has its project. *)
Lemma delete_succeeds fuel self user new_parent w :
  owned w →
  is_Some (projects w !! node self) →
  is_checked_out fuel w self = Some false →
  ∃ w' trashed,
    delete (S fuel) self user new_parent w = (w', Ret trashed) ∧
    trashed_id trashed = _id self ∧ trashed_name trashed = name self ∧
    settled w w' ∧ nodes w' !! _id self = None.
Proof.
  revert self new_parent w.
  induction fuel as [|fuel IH];
    intros self new_parent w Howned [project Hproject] Hfree;
    rewrite delete_unfold;
    rewrite (delete_with_guard _ _ self new_parent w project false Hproject
               (is_checked_out_more_fuel _ w self Hfree));
    (apply base_delete_succeeds; [apply settled_at_delete_guard|]);
    intros Hfolder child trashed w' Hchild Hw';
    rewrite (children_nodes _ w self) in Hchild
      by apply nodes_at_delete_guard;
    unfold is_checked_out in Hfree; rewrite Hfolder in Hfree;
    destruct (child_of_free_folder _ w w' self child Howned Hw' Hfolder
                Hfree Hchild) as [Hchild_project Hchild_free];
    unfold mbind, M_bind.
  - destruct (is_file child) eqn:Hkind; [|done].
    destruct (delete_file_succeeds 0 child user (Some trashed) w'
                Hchild_project Hkind Hchild_free)
      as (w'' & t & -> & _ & _ & Hw'' & _).
    exists w''. split; [done|]. by eapply settled_trans.
  - assert (Hchild_clear : is_checked_out fuel w' child = Some false).
    { destruct (is_file child) eqn:Hkind; [|done].
      unfold is_checked_out, node_is_checked_out. rewrite Hkind, Hchild_free.
      by rewrite bool_decide_eq_false_2 by (by intros ?). }
    destruct (IH child (Some trashed) w' (owned_settled w w' Howned Hw')
                Hchild_project Hchild_clear)
      as (w'' & t & -> & _ & _ & Hw'' & _).
    exists w''. split; [done|]. by eapply settled_trans.
Qed.



(** Deleting the folder [docs] of the free sample world trashes the folder
    and the file in it. *)
Lemma delete_folder_sample :
  ∃ w' trashed,
    delete 4 Sample.docs (Some Sample.alice) None Sample.world_free
      = (w', Ret trashed) ∧
    nodes w' !! "d" = None ∧ nodes w' !! "f" = None ∧
    (trashed_parent <$> trash w' !! "f") = Some (Some "d") ∧
    nodes w' !! "r" = Some Sample.root.
Proof.
  eexists _, _. split; [vm_compute; reflexivity|].
  repeat split; vm_compute; reflexivity.
Qed.


(** ** Checking in and out *)

(** [check_in_or_out] once the project and the reported checkout state
    are known. *)
Lemma check_in_or_out_run fuel self user target do_save w project b :
  projects w !! node self = Some project →
  is_checked_out fuel w self = Some b →
  check_in_or_out fuel self user target do_save w =
    if b && bool_decide (checkout self ≠ Some user)
         && bool_decide (ADMIN ∉ get_permissions project user)
       || bool_decide (WRITE ∉ get_permissions project user)
    then (w, Raise FileNodeCheckedOutError)
    else if (if target is Some _ then negb b else b) then
      match materialized_path fuel w self with
      | None => (w, OutOfFuel)
      | Some mpath =>
          let self' := set_checkout target self in
          let entry :=
            mkNodeLog (if target is Some _ then CHECKED_OUT else CHECKED_IN)
                      (checkout_log_params self' project mpath) user in
          let w1 := with_projects (alter (add_project_log entry) (node self)) w in
          if do_save then save self' w1 else (w1, Ret self')
      end
    else (w, Ret self).
Proof.
  intros Hproject Hb. unfold check_in_or_out, self_node, add_log. run.
  rewrite Hb, Hproject. fold (get_permissions project user).
  destruct (_ || _); [done|].
  pose proof (materialized_path_ext fuel w w (set_checkout target self) self
                eq_refl eq_refl eq_refl eq_refl) as Hpath.
  destruct target as [u|], b; simpl; try done;
    rewrite Hpath; destruct (materialized_path fuel w self); try done;
    by destruct do_save.
Qed.

Lemma refused_iff (b : bool) (P Q R : Prop) `{!Decision P, !Decision Q, !Decision R} :
  b && bool_decide P && bool_decide Q || bool_decide R = true
  ↔ R ∨ (b = true ∧ P ∧ Q).
Proof.
  destruct b; repeat case_bool_decide; simpl; intuition congruence.
Qed.

Lemma is_checked_out_held fuel w self holder :
  checkout self = Some holder → is_checked_out fuel w self = Some true.
Proof.
  intros Hheld. unfold is_checked_out, node_is_checked_out.
  destruct (is_file self).
  - by rewrite Hheld, bool_decide_eq_true_2.
  - destruct fuel; simpl; by rewrite Hheld.
Qed.

(** A permitted call returns when the path of the node can be computed. *)
Lemma check_in_or_out_permitted fuel self user target do_save w project b :
  projects w !! node self = Some project →
  is_checked_out fuel w self = Some b →
  ¬ (WRITE ∉ get_permissions project user ∨
     (b = true ∧ checkout self ≠ Some user ∧ ADMIN ∉ get_permissions project user)) →
  is_Some (materialized_path fuel w self) →
  ∃ w' self' project',
    check_in_or_out fuel self user target do_save w = (w', Ret self') ∧
    projects w' !! node self = Some project' ∧
    permissions project' = permissions project ∧
    node self' = node self ∧
    (meaningful b target →
       checkout self' = target ∧
       ∃ entry, logs project' = logs project ++ [entry] ∧
                action entry = (if target is Some _ then CHECKED_OUT else CHECKED_IN) ∧
                auth entry = user) ∧
    (¬ meaningful b target → self' = self ∧ w' = w ∧ project' = project).
Proof.
  intros Hproject Hb Hallowed [mpath Hpath].
  rewrite (check_in_or_out_run _ _ _ _ _ _ project b Hproject Hb), Hpath.
  destruct (_ || _) eqn:Hrefused.
  { apply refused_iff in Hrefused. tauto. }
  clear Hrefused. unfold meaningful.
  destruct (if target is Some _ then negb b else b) eqn:Hmeans.
  - simpl.
    match goal with
    | |- context [add_project_log ?e] => set (entry := e)
    end.
    assert (Hlog : projects (with_projects (alter (add_project_log entry) (node self)) w)
                     !! node self = Some (add_project_log entry project)).
    { simpl. by rewrite lookup_alter_eq, Hproject. }
    destruct do_save.
    + destruct (save_returns (set_checkout target self)
                  (with_projects (alter (add_project_log entry) (node self)) w))
        as (w' & -> & _ & Hsame).
      eexists _, _, _. split; [reflexivity|].
      rewrite Hsame. split; [exact Hlog|]. split; [done|]. split; [done|].
      split; [|intros Hno; destruct target, b; naive_solver].
      intros _. split; [done|]. exists entry. by destruct target.
    + eexists _, _, _. split; [reflexivity|].
      split; [exact Hlog|]. split; [done|]. split; [done|].
      split; [|intros Hno; destruct target, b; naive_solver].
      intros _. split; [done|]. exists entry. by destruct target.
  - eexists _, _, _. split; [reflexivity|].
    split; [exact Hproject|]. split; [done|]. split; [done|].
    split; [|done].
    intros [[-> ->]|[-> [u ->]]]; discriminate.
Qed.

(** C3 (amended): [check_in_or_out] raises the checkout conflict exactly
    when the actor lacks write permission, or the node reports itself
    checked out while its own checkout is not the actor's and the actor
    lacks admin permission.  For a file, reporting checked out while the
    checkout is not the actor's means being checked out by another user;
    a folder also reports checked out when a descendant is.  A
    write-permitted actor checks out a node that does not report itself
    checked out, and then any other user without admin permission is
    refused. *)
Theorem check_in_or_out_conflict fuel self user target do_save w project b :
  projects w !! node self = Some project →
  is_checked_out fuel w self = Some b →
  ((check_in_or_out fuel self user target do_save w).2
     = Raise FileNodeCheckedOutError
   ↔ WRITE ∉ get_permissions project user ∨
     (b = true ∧ checkout self ≠ Some user ∧
      ADMIN ∉ get_permissions project user)) ∧
  (is_file self = true →
     (b = true ∧ checkout self ≠ Some user
      ↔ ∃ other, checkout self = Some other ∧ other ≠ user)) ∧
  (b = false → WRITE ∈ get_permissions project user →
   is_Some (materialized_path fuel w self) →
     ∃ w' self',
       check_in_or_out fuel self user (Some user) do_save w = (w', Ret self') ∧
       checkout self' = Some user ∧
       ∀ other target' do_save',
         other ≠ user → ADMIN ∉ get_permissions project other →
         (check_in_or_out fuel self' other target' do_save' w').2
           = Raise FileNodeCheckedOutError).
Proof.
  intros Hproject Hb. split; [|split].
  - rewrite (check_in_or_out_run _ _ _ _ _ _ project b Hproject Hb).
    destruct (_ || _) eqn:Hrefused.
    + apply refused_iff in Hrefused. by split.
    + split; [|intros Hr; apply (proj2 (refused_iff b _ _ _)) in Hr; congruence].
      destruct (if target is Some _ then negb b else b); [|done].
      destruct (materialized_path fuel w self); [|done]. simpl.
      destruct do_save; [|done].
      match goal with
      | |- context [save ?s ?w1] =>
          destruct (save_returns s w1) as (w' & -> & _)
      end.
      done.
  - intros Hfile. unfold is_checked_out in Hb. rewrite Hfile in Hb.
    injection Hb as <-. unfold node_is_checked_out.
    rewrite bool_decide_eq_true. destruct (checkout self) as [holder|].
    + split.
      * intros [_ Hother]. exists holder. split; [done|]. congruence.
      * intros (other & [= ->] & Hne). split; [done|]. congruence.
    + split; [by intros [? _]|]. by intros (? & [=] & _).
  - intros -> Hwrite Hpath.
    destruct (check_in_or_out_permitted fuel self user (Some user) do_save w
                project false Hproject Hb) as
      (w' & self' & project' & Hrun & Hproject' & Hperm & Hnode & Hdone & _);
      [intros [?|[[=] _]]; done|done|].
    destruct Hdone as [Hheld _]; [right; split; [done|by eexists]|].
    exists w', self'. split; [done|]. split; [done|].
    intros other target' do_save' Hother Hadmin.
    rewrite <- Hnode in Hproject'.
    rewrite (check_in_or_out_run _ _ _ _ _ _ project' true Hproject'
               (is_checked_out_held fuel w' self' user Hheld)).
    unfold get_permissions. rewrite Hperm. fold (get_permissions project other).
    rewrite Hheld.
    rewrite (bool_decide_eq_true_2 (Some user ≠ Some other)) by congruence.
    by rewrite (bool_decide_eq_true_2 (ADMIN ∉ _)).
Qed.

Lemma check_in_or_out_conflict_witness :
  projects Sample.world_free !! node Sample.a_txt_free = Some Sample.project ∧
  is_checked_out 3 Sample.world_free Sample.a_txt_free = Some false ∧
  ∃ w' self',
    check_in_or_out 3 Sample.a_txt_free Sample.alice (Some Sample.alice) true
      Sample.world_free = (w', Ret self') ∧
    checkout self' = Some Sample.alice ∧
    (check_in_or_out 3 self' Sample.dave (Some Sample.dave) true w').2
      = Raise FileNodeCheckedOutError.
Proof.
  assert (Hp : projects Sample.world_free !! node Sample.a_txt_free
               = Some Sample.project) by (vm_compute; reflexivity).
  assert (Hb : is_checked_out 3 Sample.world_free Sample.a_txt_free = Some false)
    by reflexivity.
  split; [exact Hp|]. split; [exact Hb|].
  destruct (check_in_or_out_conflict 3 Sample.a_txt_free Sample.alice None true
              Sample.world_free Sample.project false Hp Hb)
    as (_ & _ & Hout).
  destruct (Hout eq_refl) as (w' & self' & Hrun & Hheld & Hnext).
  - vm_compute. apply list_elem_of_further, list_elem_of_here.
  - eexists. vm_compute. reflexivity.
  - exists w', self'. split; [exact Hrun|]. split; [exact Hheld|].
    apply Hnext; [discriminate|].
    vm_compute. intros Hin.
    apply elem_of_cons in Hin as [[=]|Hin].
    apply list_elem_of_singleton in Hin. discriminate.
Defined.

(** Alice holds [a.txt] and nobody else holds anything; she has write
    permission, the folder [docs] has no checkout of its own, and still
    her request on [docs] is refused. *)
Lemma check_in_or_out_folder_of_own_file :
  ¬ ((check_in_or_out 3 Sample.docs Sample.alice (Some Sample.alice) false
        Sample.world).2 = Raise FileNodeCheckedOutError
     ↔ WRITE ∉ get_permissions Sample.project Sample.alice ∨
       ((∃ other, checkout Sample.docs = Some other ∧ other ≠ Sample.alice) ∧
        ADMIN ∉ get_permissions Sample.project Sample.alice)).
Proof.
  intros [Hraise _].
  destruct Hraise as [Hwrite|[(other & [=] & _) _]].
  - vm_compute. reflexivity.
  - apply Hwrite. vm_compute.
    apply list_elem_of_further, list_elem_of_here.
Qed.

(** C4 (amended): a permitted [check_in_or_out] returns.  When the
    transition is meaningful (checking in a node that reports itself
    checked out, or checking out one that does not) it assigns the target
    to the node's checkout and appends exactly one log entry, of the
    matching action and by the actor, to the project; otherwise the node,
    the project and the world, hence the log, are unchanged.  The log grows
    exactly when the transition is meaningful, and a file's checkout
    changes exactly then. *)
Theorem check_in_or_out_effect fuel self user target do_save w project b :
  projects w !! node self = Some project →
  is_checked_out fuel w self = Some b →
  WRITE ∈ get_permissions project user →
  (b = true → checkout self ≠ Some user → ADMIN ∈ get_permissions project user) →
  is_Some (materialized_path fuel w self) →
  ∃ w' self' project',
    check_in_or_out fuel self user target do_save w = (w', Ret self') ∧
    projects w' !! node self = Some project' ∧
    (meaningful b target →
       checkout self' = target ∧
       ∃ entry, logs project' = logs project ++ [entry] ∧
                action entry = (if target is Some _ then CHECKED_OUT else CHECKED_IN) ∧
                auth entry = user) ∧
    (¬ meaningful b target → self' = self ∧ w' = w ∧ project' = project) ∧
    (length (logs project') = S (length (logs project)) ↔ meaningful b target) ∧
    (is_file self = true →
       (checkout self' ≠ checkout self ↔ meaningful b target)).
Proof.
  intros Hproject Hb Hwrite Hadmin Hpath.
  destruct (check_in_or_out_permitted fuel self user target do_save w
              project b Hproject Hb) as
    (w' & self' & project' & Hrun & Hproject' & _ & _ & Hdone & Hnoop);
    [tauto|done|].
  exists w', self', project'. split; [done|]. split; [done|].
  split; [done|]. split; [done|].
  destruct (decide (meaningful b target)) as [Hm|Hm].
  - destruct (Hdone Hm) as (Hset & entry & Hlogs & _).
    split; [split; [done|]; by rewrite Hlogs, length_app, Nat.add_comm|].
    intros Hfile. split; [done|]. intros _. rewrite Hset.
    unfold is_checked_out in Hb. rewrite Hfile in Hb. injection Hb as Hb.
    unfold node_is_checked_out in Hb.
    destruct Hm as [[-> ->]|[-> [u ->]]].
    + apply bool_decide_eq_true in Hb. congruence.
    + apply bool_decide_eq_false in Hb.
      destruct (checkout self); [|done]. by destruct Hb.
  - destruct (Hnoop Hm) as (-> & -> & ->).
    split; [split; [lia|done]|].
    intros _. split; [done|]. done.
Qed.

Lemma check_in_or_out_effect_witness :
  projects Sample.world !! node Sample.a_txt = Some Sample.project ∧
  is_checked_out 3 Sample.world Sample.a_txt = Some true ∧
  ∃ w' self' project',
    check_in_or_out 3 Sample.a_txt Sample.alice None true Sample.world
      = (w', Ret self') ∧
    projects w' !! "p1" = Some project' ∧
    checkout self' = None ∧ length (logs project') = 1%nat.
Proof.
  assert (Hp : projects Sample.world !! node Sample.a_txt = Some Sample.project)
    by (vm_compute; reflexivity).
  assert (Hb : is_checked_out 3 Sample.world Sample.a_txt = Some true)
    by reflexivity.
  split; [exact Hp|]. split; [exact Hb|].
  destruct (check_in_or_out_effect 3 Sample.a_txt Sample.alice None true
              Sample.world Sample.project true Hp Hb)
    as (w' & self' & project' & Hrun & Hproject' & Hdone & _ & Hlen & _).
  - vm_compute. apply list_elem_of_further, list_elem_of_here.
  - intros _ Hother. by destruct Hother.
  - eexists. vm_compute. reflexivity.
  - exists w', self', project'. split; [exact Hrun|]. split; [exact Hproject'|].
    assert (Hm : meaningful true None) by (by left).
    split; [exact (proj1 (Hdone Hm))|].
    exact (proj2 Hlen Hm).
Defined.

(** The folder [docs] has no checkout of its own and reports itself
    checked out through [a.txt].  When bob, an administrator, checks it
    in, one log entry is written although the folder's checkout is what it
    was: for a folder the log entry and the change of the checkout do not
    go together. *)
Lemma check_in_folder_logs_without_change :
  is_checked_out 3 Sample.world Sample.docs = Some true ∧
  ∃ w' self' project',
    check_in_or_out 3 Sample.docs Sample.bob None false Sample.world
      = (w', Ret self') ∧
    projects w' !! "p1" = Some project' ∧
    checkout self' = checkout Sample.docs ∧
    length (logs project') = S (length (logs Sample.project)) ∧
    ¬ (checkout self' ≠ checkout Sample.docs
       ↔ length (logs project') = S (length (logs Sample.project))).
Proof.
  split; [vm_compute; reflexivity|].
  eexists _, _, _.
  split; [vm_compute; reflexivity|].
  split; [vm_compute; reflexivity|].
  split; [reflexivity|]. split; [reflexivity|].
  intros [_ Hback]. by apply Hback.
Qed.

(** Checking in a file that is not checked out: nothing happens. *)
Lemma check_in_free_file_noop :
  check_in_or_out 3 Sample.a_txt_free Sample.alice None true Sample.world_free
  = (Sample.world_free, Ret Sample.a_txt_free).
Proof. vm_compute. reflexivity. Qed.

(** ** Materialized paths *)

Lemma string_app_cons c (a b : string) : String c a +:+ b = String c (a +:+ b).
Proof. reflexivity. Qed.

Lemma string_app_assoc (a b c : string) : (a +:+ b) +:+ c = a +:+ (b +:+ c).
Proof.
  induction a as [|x a IH]; [reflexivity|].
  by rewrite !string_app_cons, IH.
Qed.

Lemma string_app_nonempty (a b : string) : b ≠ "" → a +:+ b ≠ "".
Proof. intros Hb. destruct a; [exact Hb|]. by rewrite string_app_cons. Qed.

Lemma ends_with_slash_cons c (b : string) :
  b ≠ "" → Py.ends_with_slash (String c b) = Py.ends_with_slash b.
Proof. by destruct b. Qed.

Lemma ends_with_slash_app (a b : string) :
  b ≠ "" → Py.ends_with_slash (a +:+ b) = Py.ends_with_slash b.
Proof.
  intros Hb. induction a as [|x a IH]; [reflexivity|].
  rewrite string_app_cons, ends_with_slash_cons; [exact IH|].
  by apply string_app_nonempty.
Qed.

(** Joining onto a non-empty prefix that does not end with a slash puts one
    slash before each name. *)
Lemma join_steps_from acc names :
  acc ≠ "" → Py.ends_with_slash acc = false → joinable names = true →
  fold_left Py.join_step names acc =
    match names with
    | [] => acc
    | _ => acc +:+ "/" +:+ Py.slash_join names
    end.
Proof.
  revert acc.
  induction names as [|x rest IH]; intros acc Hacc Hend Hok; [done|].
  assert (Hstep : Py.starts_with_slash x = false →
                  Py.join_step acc x = acc +:+ "/" +:+ x).
  { intros Hx. unfold Py.join_step.
    by rewrite Hx, bool_decide_eq_false_2, Hend. }
  destruct rest as [|y rest].
  - simpl in *. apply negb_true_iff in Hok. by rewrite Hstep.
  - change (joinable (x :: y :: rest))
      with (negb (Py.starts_with_slash x) && negb (bool_decide (x = ""))
            && negb (Py.ends_with_slash x) && joinable (y :: rest)) in Hok.
    apply andb_true_iff in Hok as [Hok Hrest].
    apply andb_true_iff in Hok as [Hok Hxend].
    apply andb_true_iff in Hok as [Hxstart Hxne].
    apply negb_true_iff in Hxstart, Hxend, Hxne.
    apply bool_decide_eq_false in Hxne.
    change (fold_left Py.join_step (x :: y :: rest) acc)
      with (fold_left Py.join_step (y :: rest) (Py.join_step acc x)).
    rewrite Hstep by done.
    rewrite IH; [| |  |done].
    + change (Py.slash_join (x :: y :: rest))
        with (x +:+ "/" +:+ Py.slash_join (y :: rest)).
      by rewrite !string_app_assoc.
    + by apply string_app_nonempty.
    + rewrite ends_with_slash_app by done.
      change ("/" +:+ x) with (String "/" x).
      by rewrite ends_with_slash_cons.
Qed.

(** With an empty first component [os.path.join] is the slash-join of the
    remaining names. *)
Lemma os_path_join_from_empty names :
  joinable names = true → os_path_join "" names = Py.slash_join names.
Proof.
  unfold os_path_join. destruct names as [|x rest]; [done|]. intros Hok.
  assert (Hstep : Py.starts_with_slash x = false → Py.join_step "" x = x).
  { intros Hx. unfold Py.join_step. by rewrite Hx. }
  destruct rest as [|y rest].
  - simpl in *. apply negb_true_iff in Hok. by rewrite Hstep.
  - change (joinable (x :: y :: rest))
      with (negb (Py.starts_with_slash x) && negb (bool_decide (x = ""))
            && negb (Py.ends_with_slash x) && joinable (y :: rest)) in Hok.
    apply andb_true_iff in Hok as [Hok Hrest].
    apply andb_true_iff in Hok as [Hok Hxend].
    apply andb_true_iff in Hok as [Hxstart Hxne].
    apply negb_true_iff in Hxstart, Hxend, Hxne.
    apply bool_decide_eq_false in Hxne.
    change (fold_left Py.join_step (x :: y :: rest) "")
      with (fold_left Py.join_step (y :: rest) (Py.join_step "" x)).
    rewrite Hstep by done.
    by rewrite join_steps_from.
Qed.

Lemma ancestry_nonempty w n l : ancestry w n l → l ≠ [].
Proof.
  intros Hanc. destruct Hanc as [n Hroot|n p up Hparent Hup]; [done|].
  by destruct up.
Qed.

(** With enough fuel the generator yields the ancestry, node first. *)
Lemma lineage_of_ancestry w n l :
  ancestry w n l →
  ∀ fuel, (length l ≤ S fuel)%nat → lineage fuel w n = Some (reverse l).
Proof.
  induction 1 as [n Hroot|n p l Hparent Hup IH]; intros fuel Hfuel.
  - destruct fuel; simpl; by rewrite Hroot.
  - rewrite length_app in Hfuel. simpl in Hfuel.
    pose proof (ancestry_nonempty _ _ _ Hup) as Hne.
    destruct fuel as [|fuel]; [destruct l; [done|simpl in Hfuel; lia]|].
    simpl. rewrite Hparent, IH by lia. simpl.
    by rewrite reverse_snoc.
Qed.

Lemma materialized_path_root fuel w self :
  parent_of w self = None → materialized_path fuel w self = Some "/".
Proof. intros Hroot. unfold materialized_path. by rewrite Hroot. Qed.

(** The stored row never holds a path: [save] blanks both fields. *)
Lemma node_save_clears_paths self w :
  ∃ w' row,
    node_save self w = (w', Ret row) ∧ nodes w' !! _id self = Some row ∧
    stored_path row = "" ∧ stored_materialized_path row = "".
Proof.
  unfold node_save, base_save. run. simpl. eexists _, _.
  split; [reflexivity|]. simpl. by rewrite lookup_insert_eq.
Qed.

(** C6 (amended): let the ancestry of a node be a root named with the
    empty string followed by the nodes [below] it, down to the node
    itself, where no name below the root begins with a slash and each of
    them but the node's own is non-empty and does not end with one.  Then
    the materialized path is a slash followed by the slash-joined names
    below the root, with a trailing slash for a folder; and it is exactly
    a slash for the root, the one node without a parent. *)
Theorem materialized_path_joined fuel w self root below :
  ancestry w self (root :: below) →
  name root = "" →
  joinable (name <$> below) = true →
  (length below ≤ fuel)%nat →
  materialized_path fuel w self =
    Some (match below with
          | [] => "/"
          | _ => if is_file self
                 then "/" +:+ Py.slash_join (name <$> below)
                 else "/" +:+ Py.slash_join (name <$> below) +:+ "/"
          end) ∧
  (parent_of w self = None ↔ below = []).
Proof.
  intros Hanc Hroot Hok Hfuel.
  pose proof (lineage_of_ancestry _ _ _ Hanc fuel) as Hlin.
  inversion Hanc as [n Hnone Hn Hl|n p l Hparent Hup Hn Hl]; subst.
  - split; [by apply materialized_path_root|done].
  - assert (Hbelow : below ≠ []).
    { intros ->. pose proof (ancestry_nonempty _ _ _ Hup).
      destruct l as [|? [|]]; simplify_eq/=. }
    split; [|split; [congruence|done]].
    unfold materialized_path. rewrite Hparent, Hlin by (simpl; lia). simpl.
    rewrite <- fmap_reverse, reverse_involutive. simpl. rewrite Hroot.
    rewrite os_path_join_from_empty by done.
    by destruct below.
Qed.

Lemma materialized_path_joined_witness :
  ancestry Sample.world Sample.a_txt [Sample.root; Sample.docs; Sample.a_txt] ∧
  materialized_path 2 Sample.world Sample.a_txt = Some "/docs/a.txt" ∧
  materialized_path 2 Sample.world Sample.docs = Some "/docs/".
Proof.
  assert (Hroot : ancestry Sample.world Sample.root [Sample.root])
    by (apply ancestry_root; reflexivity).
  assert (Hdocs : ancestry Sample.world Sample.docs [Sample.root; Sample.docs]).
  { apply (ancestry_child _ _ Sample.root [Sample.root]); [|exact Hroot].
    vm_compute. reflexivity. }
  assert (Hfile : ancestry Sample.world Sample.a_txt
                    [Sample.root; Sample.docs; Sample.a_txt]).
  { apply (ancestry_child _ _ Sample.docs [Sample.root; Sample.docs]);
      [|exact Hdocs].
    vm_compute. reflexivity. }
  split; [exact Hfile|]. split.
  - apply (materialized_path_joined 2 Sample.world Sample.a_txt Sample.root
             [Sample.docs; Sample.a_txt] Hfile eq_refl eq_refl).
    simpl. lia.
  - apply (materialized_path_joined 2 Sample.world Sample.docs Sample.root
             [Sample.docs] Hdocs eq_refl eq_refl).
    simpl. lia.
Defined.

(** A file named [/notes] in the folder [docs]: [os.path.join] restarts at
    the name that begins with a slash, so the path is [//notes] and not the
    slash-joined [/docs//notes]. *)
Lemma materialized_path_leading_slash :
  ancestry Sample.slash_world Sample.slash_file
    [Sample.root; Sample.docs; Sample.slash_file] ∧
  name Sample.root = "" ∧
  materialized_path 3 Sample.slash_world Sample.slash_file = Some "//notes" ∧
  materialized_path 3 Sample.slash_world Sample.slash_file
    ≠ Some ("/" +:+ Py.slash_join (name <$> [Sample.docs; Sample.slash_file])).
Proof.
  split; [|split; [reflexivity|]].
  - apply (ancestry_child _ _ Sample.docs [Sample.root; Sample.docs]);
      [vm_compute; reflexivity|].
    apply (ancestry_child _ _ Sample.root [Sample.root]);
      [vm_compute; reflexivity|].
    apply ancestry_root. reflexivity.
  - assert (Hrun : materialized_path 3 Sample.slash_world Sample.slash_file
                   = Some "//notes") by (vm_compute; reflexivity).
    split; [exact Hrun|]. rewrite Hrun. discriminate.
Qed.

(** * Further properties *)

(** ** Paths built from primary keys *)

Lemma string_app_nil_r (s : string) : s +:+ "" = s.
Proof.
  induction s as [|c s IH]; [reflexivity|].
  by rewrite string_app_cons, IH.
Qed.

Lemma lstrip_slash_plain s :
  Py.starts_with_slash s = false → Py.lstrip_slash s = s.
Proof.
  destruct s as [|c s]; [done|]. simpl. by intros ->.
Qed.

Lemma rstrip_slash_plain s :
  Py.ends_with_slash s = false → Py.rstrip_slash s = s.
Proof.
  induction s as [|c s IH]; [done|].
  destruct s as [|d s].
  - simpl. by intros ->.
  - intros Hend. rewrite ends_with_slash_cons in Hend by done.
    change (Py.rstrip_slash (String c (String d s)))
      with (match Py.rstrip_slash (String d s) with
            | EmptyString => if bool_decide (c = "/"%char) then EmptyString
                             else String c EmptyString
            | r => String c r
            end).
    by rewrite IH.
Qed.

Lemma rstrip_slash_snoc s : Py.rstrip_slash (s +:+ "/") = Py.rstrip_slash s.
Proof.
  induction s as [|c s IH]; [reflexivity|].
  rewrite string_app_cons. simpl. by rewrite IH.
Qed.

Lemma strip_slash_path self :
  plain_id (_id self) = true → Py.strip_slash (path self) = _id self.
Proof.
  unfold plain_id, path, Py.strip_slash.
  intros [Hstart Hend]%andb_true_iff.
  apply negb_true_iff in Hstart, Hend.
  change ("/" +:+ _id self +:+ (if is_file self then "" else "/"))
    with (String "/" (_id self +:+ (if is_file self then "" else "/"))).
  change (Py.lstrip_slash (String "/" ?s)) with (Py.lstrip_slash s).
  destruct (is_file self).
  - by rewrite string_app_nil_r, lstrip_slash_plain, rstrip_slash_plain.
  - destruct (_id self) as [|c pk] eqn:Hpk; [reflexivity|].
    rewrite lstrip_slash_plain by (by rewrite string_app_cons).
    by rewrite rstrip_slash_snoc, rstrip_slash_plain.
Qed.

(** X1: stripping the slashes off the [path] of a node gives its primary
    key back, for a key that neither begins nor ends with a slash. *)
Theorem strip_path_id self :
  plain_id (_id self) = true → Py.strip_slash (path self) = _id self.
Proof. apply strip_slash_path. Qed.

Lemma strip_path_id_witness :
  plain_id (_id Sample.docs) = true ∧
  Py.strip_slash (path Sample.docs) = "d".
Proof.
  split; [reflexivity|]. by apply (strip_path_id Sample.docs).
Defined.

(** A key with a slash at an end is not recovered. *)
Lemma strip_path_id_slashed :
  Py.strip_slash (path (new_folder "a/" "" "p1")) = "a".
Proof. reflexivity. Qed.

Section GetOrCreate.

Variable create : ProjectNode → string → FileNode.

(** X2: [get_or_create] on the [path] of a stored node of the project
    returns that node; when the key belongs to a node of another project,
    or to none, it returns a newly created object instead, never the
    foreign row. *)
Theorem get_or_create_own w project inst owner_project :
  nodes w !! _id inst = Some inst →
  plain_id (_id inst) = true →
  projects w !! node inst = Some owner_project →
  get_or_create create w project (path inst) =
    Ret (if bool_decide (node_id owner_project = node_id project)
         then inst else create project (path inst)).
Proof.
  intros Hstored Hplain Hproject. unfold get_or_create, load.
  rewrite strip_slash_path, Hstored, Hproject by done.
  by destruct (bool_decide _).
Qed.

Lemma get_or_create_missing w project at_path :
  nodes w !! Py.strip_slash at_path = None →
  get_or_create create w project at_path = Ret (create project at_path).
Proof. intros Hnone. unfold get_or_create, load. by rewrite Hnone. Qed.

End GetOrCreate.

Lemma get_or_create_own_witness :
  get_or_create Shelf.fresh Sample.world Sample.project (path Sample.a_txt)
    = Ret Sample.a_txt ∧
  get_or_create Shelf.fresh Sample.world Sample.preprint_project "/f"
    = Ret Sample.a_txt.
Proof.
  assert (Hstored : nodes Sample.world !! _id Sample.a_txt = Some Sample.a_txt)
    by (vm_compute; reflexivity).
  assert (Hproject : projects Sample.world !! node Sample.a_txt = Some Sample.project)
    by (vm_compute; reflexivity).
  split.
  - exact (get_or_create_own Shelf.fresh Sample.world Sample.project Sample.a_txt
             Sample.project Hstored eq_refl Hproject).
  - exact (get_or_create_own Shelf.fresh Sample.world Sample.preprint_project
             Sample.a_txt Sample.project Hstored eq_refl Hproject).
Defined.

(** ** Identifiers of a folder of files *)

Lemma extend_all_files (f : string → outcome (list string)) (g : FileNode → list string)
    (kids : list FileNode) acc :
  (∀ c, c ∈ kids → f (path c) = Ret (g c)) →
  extend_all f (path <$> kids) acc = Ret (acc ++ concat (g <$> kids)).
Proof.
  revert acc. induction kids as [|c kids IH]; intros acc Hf; simpl.
  - by rewrite app_nil_r.
  - rewrite Hf by apply list_elem_of_here.
    rewrite IH by (intros; apply Hf; by apply list_elem_of_further).
    by rewrite <- app_assoc.
Qed.

(** On a file, live or trashed, the registry is read and nothing fails. *)
Lemma get_file_guids_file fuel w at_path provider file_obj :
  resolve w (Py.strip_slash at_path) = Some file_obj →
  obj_is_file file_obj = true →
  get_file_guids fuel w at_path provider = Ret (first_guid w (obj_id file_obj)).
Proof.
  intros Hres Hfile. unfold first_guid.
  destruct fuel; simpl; rewrite Hres, Hfile; simpl;
    by destruct (filter _ (guids w)).
Qed.

(** The listing of a folder of files, in the order in which the tree
    table yields the children. *)
Lemma get_file_guids_folder_listing fuel w at_path provider folder :
  keyed w →
  load w (Py.strip_slash at_path) = Some folder →
  is_file folder = false →
  (∀ c, c ∈ children w folder → is_file c = true ∧ plain_id (_id c) = true) →
  get_file_guids (S fuel) w at_path provider =
    Ret (concat ((λ c, first_guid w (_id c)) <$> children w folder)).
Proof.
  intros Hkeyed Hload Hfolder Hkids.
  simpl. unfold resolve. rewrite Hload. simpl. rewrite Hfolder. simpl.
  rewrite (extend_all_files _ (λ c, first_guid w (_id c))); [done|].
  intros c Hc. destruct (Hkids c Hc) as [Hfile Hplain].
  apply elem_of_children in Hc as [_ [pk Hpk]].
  pose proof (Hkeyed pk c Hpk) as <-.
  apply (get_file_guids_file fuel w (path c) provider (Live c)); [|done].
  unfold resolve, load. by rewrite strip_slash_path, Hpk.
Qed.

Lemma concat_fmap_Permutation {A B} (f : A → list B) (l l' : list A) :
  l ≡ₚ l' → concat (f <$> l) ≡ₚ concat (f <$> l').
Proof.
  induction 1 as [|x l l' _ IH|x y l|l l' l'' _ IH1 _ IH2]; simpl.
  - done.
  - by rewrite IH.
  - rewrite !app_assoc. f_equiv. apply Permutation_app_comm.
  - by etrans.
Qed.

(** X3: in a tree table keyed by primary key, the identifiers collected
    for a live folder whose children are all files with plain keys are,
    up to their order, the identifiers of those files: for each child in
    turn the first identifier registered for it, nothing for an
    unregistered file; one level of recursion is enough.  The order is
    that in which the children are listed, whichever it is. *)
Theorem get_file_guids_folder_of_files fuel w at_path provider folder :
  keyed w →
  load w (Py.strip_slash at_path) = Some folder →
  is_file folder = false →
  (∀ c, c ∈ children w folder → is_file c = true ∧ plain_id (_id c) = true) →
  ∃ found,
    get_file_guids (S fuel) w at_path provider = Ret found ∧
    ∀ kids, kids ≡ₚ children w folder →
            found ≡ₚ concat ((λ c, first_guid w (_id c)) <$> kids).
Proof.
  intros Hkeyed Hload Hfolder Hkids. eexists. split.
  - by apply get_file_guids_folder_listing.
  - intros kids Hperm. by apply concat_fmap_Permutation.
Qed.

Lemma get_file_guids_folder_of_files_witness :
  load Shelf.world (Py.strip_slash "/d/") = Some Sample.docs ∧
  ∃ found,
    get_file_guids 1 Shelf.world "/d/" "osfstorage" = Ret found ∧
    found ≡ₚ ["g1"; "g2"].
Proof.
  assert (Hload : load Shelf.world (Py.strip_slash "/d/") = Some Sample.docs)
    by (vm_compute; reflexivity).
  split; [exact Hload|].
  destruct (get_file_guids_folder_of_files 0 Shelf.world "/d/" "osfstorage"
              Sample.docs) as (found & Hrun & Hfound); [|exact Hload|reflexivity| |].
  - intros pk n Hn. by apply rows_of_list_to_map in Hn as [Hid _].
  - intros c [Hparent [pk Hpk]]%elem_of_children.
    apply rows_of_list_to_map in Hpk as [_ Hc].
    repeat (apply elem_of_cons in Hc as [->|Hc]; [by split|]).
    by apply not_elem_of_nil in Hc.
  - exists found. split; [exact Hrun|].
    apply (Hfound [Sample.a_txt; Shelf.b_txt]).
    assert (Hkids : children Shelf.world Sample.docs = [Shelf.b_txt; Sample.a_txt])
      by (vm_compute; reflexivity).
    rewrite Hkids. apply perm_swap.
Defined.

(** ** Checkout state of a folder *)

Lemma any_checked_out_total {A} (f : A → option bool) (g : A → bool) l :
  (∀ x, x ∈ l → f x = Some (g x)) →
  any_checked_out f l = Some (existsb g l).
Proof.
  induction l as [|x l IH]; intros Hf; simpl; [done|].
  rewrite Hf by apply list_elem_of_here.
  destruct (g x); [done|]. simpl. apply IH.
  intros y Hy. apply Hf. by apply list_elem_of_further.
Qed.

(** X4: a folder whose children are all files reports itself checked out
    exactly when it or one of these files carries a checkout, without any
    recursion. *)
Theorem is_checked_out_folder_of_files fuel w self :
  is_file self = false →
  (∀ c, c ∈ children w self → is_file c = true) →
  is_checked_out fuel w self =
    Some (bool_decide (checkout self ≠ None) || some_checkout (children w self)).
Proof.
  intros Hfolder Hkids. unfold is_checked_out. rewrite Hfolder.
  destruct fuel; simpl; (destruct (checkout self); [done|]);
    rewrite (bool_decide_eq_false_2 (None ≠ None)) by (by intros ?); simpl;
    apply any_checked_out_total; intros c Hc; by rewrite Hkids.
Qed.

Lemma is_checked_out_folder_of_files_witness :
  is_checked_out 0 Shelf.world Sample.docs = Some true ∧
  is_checked_out 0 Sample.world_free Sample.docs = Some false.
Proof.
  split.
  - rewrite (is_checked_out_folder_of_files 0 Shelf.world Sample.docs eq_refl).
    + vm_compute. reflexivity.
    + intros c [Hparent [pk Hpk]]%elem_of_children.
      apply rows_of_list_to_map in Hpk as [_ Hc].
      repeat (apply elem_of_cons in Hc as [->|Hc]; [done|]).
      by apply not_elem_of_nil in Hc.
  - rewrite (is_checked_out_folder_of_files 0 Sample.world_free Sample.docs eq_refl).
    + vm_compute. reflexivity.
    + intros c [Hparent [pk Hpk]]%elem_of_children.
      apply rows_of_list_to_map in Hpk as [_ Hc].
      repeat (apply elem_of_cons in Hc as [->|Hc]; [done|]).
      by apply not_elem_of_nil in Hc.
Defined.

(** ** The walk to the root *)

(** X5: the walk of [materialized_path] has no guard against a cycle: for
    a node that is its own parent it yields no path, however many parent
    links are followed. *)
Theorem materialized_path_own_parent fuel w self :
  parent_of w self = Some self →
  lineage fuel w self = None ∧ materialized_path fuel w self = None.
Proof.
  intros Hloop.
  assert (Hlineage : ∀ n, lineage n w self = None).
  { induction n as [|n IH]; simpl; rewrite Hloop; [done|]. by rewrite IH. }
  split; [done|]. unfold materialized_path. by rewrite Hloop, Hlineage.
Qed.

Lemma materialized_path_own_parent_witness :
  parent_of Shelf.loop_world Shelf.loop = Some Shelf.loop ∧
  materialized_path 1000 Shelf.loop_world Shelf.loop = None.
Proof.
  assert (Hloop : parent_of Shelf.loop_world Shelf.loop = Some Shelf.loop)
    by (vm_compute; reflexivity).
  split; [exact Hloop|].
  exact (proj2 (materialized_path_own_parent 1000 _ _ Hloop)).
Defined.

(** X6: whatever the names, the materialized path of a node below the root
    is a slash, then [os.path.join] of the names from the root down to the
    node, then a slash for a folder; following as many parent links as
    there are nodes below the root is enough. *)
Theorem materialized_path_os_path_join fuel w self root below :
  ancestry w self (root :: below) →
  below ≠ [] →
  (length below ≤ fuel)%nat →
  materialized_path fuel w self =
    Some (if is_file self
          then "/" +:+ os_path_join (name root) (name <$> below)
          else "/" +:+ os_path_join (name root) (name <$> below) +:+ "/").
Proof.
  intros Hanc Hbelow Hfuel.
  pose proof (lineage_of_ancestry _ _ _ Hanc fuel) as Hlin.
  inversion Hanc as [n Hnone Hn Hl|n p l Hparent Hup Hn Hl]; subst; [done|].
  unfold materialized_path. rewrite Hparent, Hlin by (simpl; lia). simpl.
  by rewrite <- fmap_reverse, reverse_involutive.
Qed.

Lemma materialized_path_os_path_join_witness :
  ancestry Sample.slash_world Sample.slash_file
    [Sample.root; Sample.docs; Sample.slash_file] ∧
  materialized_path 2 Sample.slash_world Sample.slash_file = Some "//notes".
Proof.
  assert (Hanc : ancestry Sample.slash_world Sample.slash_file
                   [Sample.root; Sample.docs; Sample.slash_file]).
  { apply (ancestry_child _ _ Sample.docs [Sample.root; Sample.docs]);
      [vm_compute; reflexivity|].
    apply (ancestry_child _ _ Sample.root [Sample.root]);
      [vm_compute; reflexivity|].
    apply ancestry_root. reflexivity. }
  split; [exact Hanc|].
  apply (materialized_path_os_path_join 2 _ _ _ _ Hanc); [done|simpl; lia].
Defined.

(** ** Selecting a version *)

Lemma index_elem_of {A} (l : list A) i x : Py.index l i = Some x → x ∈ l.
Proof.
  unfold Py.index.
  repeat case_bool_decide; try done; intros Hx; by eapply list_elem_of_lookup_2.
Qed.

(** X7: for version and revision selectors that are [None], integers or
    strings, [touch] does not raise, and what it returns is one of the
    file's versions or nothing. *)
Theorem touch_returns_member self bearer version revision :
  ∃ found,
    touch self bearer version revision = Ret found ∧
    ∀ v, found = Some v → v ∈ versions self.
Proof.
  unfold touch, get_version.
  destruct (py_or revision version) as [|n|s] eqn:Hsel.
  - eexists. split; [done|]. intros v Hv.
    apply last_Some in Hv as [l ->]. apply elem_of_app. right.
    apply list_elem_of_here.
  - simpl. destruct (Py.index _ _) as [v|] eqn:Hv.
    + eexists. split; [done|]. intros ? [= <-]. by eapply index_elem_of.
    + eexists. split; [done|]. by intros.
  - simpl. destruct (Py.int_of_string s) as [n|]; simpl.
    + destruct (Py.index _ _) as [v|] eqn:Hv.
      * eexists. split; [done|]. intros ? [= <-]. by eapply index_elem_of.
      * eexists. split; [done|]. by intros.
    + eexists. split; [done|]. by intros.
Qed.

(** The selector of [touch] is the revision unless that is [None], [0]
    or empty, in which case it is the version; selecting nothing gives the
    latest version. *)
Lemma touch_selector self bearer version revision :
  touch self bearer version revision =
    get_version self (if py_truthy revision then revision else version) false ∧
  touch self bearer version (PyInt 0) = get_version self version false ∧
  touch self bearer version (PyStr "") = get_version self version false ∧
  touch self bearer PyNone PyNone = Ret (last (versions self)).
Proof. done. Qed.

(** X8: what [get_version] returns for an integer selector [n] on a file
    with [c] versions: the [n]th version for [n] from 1 to [c]; counted
    from the end, the version at [c + n] for [n] from [1 - c] to 0; absence
    or [VersionNotFoundError] above [c] and at or below [-c]. *)
Theorem get_version_integer self (n : Z) required :
  let c := Z.of_nat (length (versions self)) in
  get_version self (PyInt n) required =
    if bool_decide (1 <= n <= c)
    then Ret (versions self !! Z.to_nat (n - 1))
    else if bool_decide (- c < n <= 0)
    then Ret (versions self !! Z.to_nat (c + n - 1))
    else if required then Raise (VersionNotFoundError (PyInt n)) else Ret None.
Proof.
  intros c. unfold get_version. simpl. unfold Py.index.
  subst c. set (len := length (versions self)).
  repeat case_bool_decide; try lia.
  - destruct (lookup_lt_is_Some_2 (versions self) (Z.to_nat (n - 1))) as [v Hv];
      [fold len; lia|]. by rewrite Hv.
  - by rewrite (lookup_ge_None_2 (versions self) (Z.to_nat (n - 1)))
      by (fold len; lia).
  - replace (Z.to_nat (Z.of_nat len + (n - 1)))
      with (Z.to_nat (Z.of_nat len + n - 1)) by lia.
    destruct (lookup_lt_is_Some_2 (versions self) (Z.to_nat (Z.of_nat len + n - 1)))
      as [v Hv]; [fold len; lia|]. by rewrite Hv.
  - done.
Qed.

(** A string selector that reads as an integer selects what that
    integer selects; one that does not selects nothing. *)
Lemma get_version_string self s :
  get_version self (PyStr s) false =
    match Py.int_of_string s with
    | Some n => get_version self (PyInt n) false
    | None => Ret None
    end.
Proof.
  unfold get_version. simpl. by destruct (Py.int_of_string s).
Qed.

(** ** Numbering of versions *)

Lemma dense_snoc vs v :
  dense vs → identifier v = Z.of_nat (length vs) + 1 → dense (vs ++ [v]).
Proof.
  intros Hdense Hv i x Hx.
  destruct (decide (i < length vs)%nat) as [Hi|Hi].
  - rewrite lookup_app_l in Hx by done. by apply Hdense.
  - rewrite lookup_app_r in Hx by lia.
    destruct (i - length vs)%nat as [|k] eqn:Hk; [|by destruct k].
    injection Hx as <-. rewrite Hv. f_equal. lia.
Qed.

Section Numbering.

Variable archive_match : World → FileVersion → option Metadata.

(** X9: [create_version] keeps the version sequence densely numbered from
    1 and only ever appends to it: the old sequence is a prefix of the new
    one, and the version returned is the last of the new sequence, numbered
    with its length. *)
Theorem create_version_keeps_dense self by_user loc meta w w1 self1 v1 :
  dense (versions self) →
  create_version archive_match self by_user loc meta w = (w1, Ret (self1, v1)) →
  dense (versions self1) ∧
  versions self `prefix_of` versions self1 ∧
  last (versions self1) = Some v1 ∧
  identifier v1 = Z.of_nat (length (versions self1)).
Proof.
  intros Hdense.
  set (proposed := mkFileVersion (Z.of_nat (length (versions self)) + 1) by_user loc ∅).
  destruct (store_version_spec archive_match self proposed meta w)
    as (v & _ & Hi & _ & Hrun).
  assert (Hstored :
    store_version archive_match self proposed meta w = (w1, Ret (self1, v1)) →
    dense (versions self1) ∧ versions self `prefix_of` versions self1 ∧
    last (versions self1) = Some v1 ∧
    identifier v1 = Z.of_nat (length (versions self1))).
  { rewrite Hrun. intros [= <- <- <-]. simpl.
    split; [by apply dense_snoc|]. split; [by eexists|].
    split; [by rewrite last_snoc|].
    rewrite Hi, length_app. simpl. lia. }
  unfold create_version. run. simpl. fold proposed.
  destruct (last (versions self)) as [latest|] eqn:Hlast; [|done].
  destruct (is_duplicate latest proposed); [|done].
  intros [= <- <- <-]. split; [done|]. split; [done|]. split; [done|].
  apply last_Some in Hlast as [vs Hvs].
  rewrite Hvs, length_app. simpl.
  rewrite (Hdense (length vs) latest) by (by rewrite Hvs, list_lookup_middle).
  lia.
Qed.

End Numbering.

Lemma create_version_keeps_dense_witness :
  dense (versions Shelf.b_txt) ∧
  ∃ w1 self1 v1,
    create_version Sample.no_archive Shelf.b_txt Sample.alice Sample.loc_a None
      Shelf.world = (w1, Ret (self1, v1)) ∧
    identifier v1 = 3 ∧ length (versions self1) = 3%nat.
Proof.
  assert (Hdense : dense (versions Shelf.b_txt)).
  { intros [|[|[|i]]] v; simpl; intros [= <-]; reflexivity. }
  split; [exact Hdense|].
  let r := eval vm_compute in
    (create_version Sample.no_archive Shelf.b_txt Sample.alice Sample.loc_a None
       Shelf.world) in
  match r with
  | (?w1, Ret (?s1, ?v1)) =>
      assert (Hrun : create_version Sample.no_archive Shelf.b_txt Sample.alice
                       Sample.loc_a None Shelf.world = (w1, Ret (s1, v1)))
        by (vm_compute; reflexivity);
      destruct (create_version_keeps_dense Sample.no_archive Shelf.b_txt
                  Sample.alice Sample.loc_a None Shelf.world w1 s1 v1 Hdense Hrun)
        as (_ & _ & _ & Hid);
      exists w1, s1, v1
  end.
  split; [exact Hrun|]. split; [exact Hid|reflexivity].
Defined.

(** Location A, then B, then A again are three versions: only the latest
    version is compared with the proposed one. *)
Lemma create_version_alternating :
  ∃ w1 self1 v1,
    create_version Sample.no_archive Shelf.b_txt Sample.alice Sample.loc_a None
      Shelf.world = (w1, Ret (self1, v1)) ∧
    location <$> versions self1 = [Sample.loc_a; Sample.loc_b; Sample.loc_a].
Proof. eexists _, _, _. split; [vm_compute; reflexivity|reflexivity]. Qed.

(** ** Serialization *)

Lemma get_version_optional self version :
  ∃ found, get_version self version false = Ret found.
Proof.
  unfold get_version. destruct version as [|n|s]; simpl; [by eexists|..].
  - destruct (Py.index _ _); by eexists.
  - destruct (Py.int_of_string s); simpl; [|by eexists].
    destruct (Py.index _ _); by eexists.
Qed.

Section Serialize.

Variable base_serialize : FileNode → gmap string SerVal.

(** X10: the serialization of a file always carries, under [version], the
    number of the file's versions, whichever version is selected and
    whatever the base class put there, and under [md5] and [sha256] the
    checksums of the selected version, [None] when nothing is selected;
    every other key of the base serialization is kept, and [fullPath] is
    the materialized path when the full form is asked for. *)
Theorem file_serialize_fields fuel w self include_full version selected :
  get_version self version false = Ret selected →
  (include_full = true → is_Some (materialized_path fuel w self)) →
  ∃ d,
    file_serialize base_serialize fuel w self include_full version = Ret d ∧
    d !! "version" = Some (SInt (Z.of_nat (length (versions self)))) ∧
    d !! "md5" = Some (match selected with
                       | Some v => opt_ser (metadata v !! "md5")
                       | None => SNone
                       end) ∧
    d !! "sha256" = Some (match selected with
                          | Some v => opt_ser (metadata v !! "sha256")
                          | None => SNone
                          end) ∧
    (include_full = true →
       d !! "fullPath" = SStr <$> materialized_path fuel w self) ∧
    (∀ k, k ≠ "version" → k ≠ "md5" → k ≠ "sha256" →
          (include_full = true → k ≠ "fullPath") →
          d !! k = base_serialize self !! k).
Proof.
  intros Hsel Hpath. unfold file_serialize. rewrite Hsel.
  destruct include_full.
  - destruct (Hpath eq_refl) as [p Hp]. rewrite Hp. simpl.
    eexists. split; [reflexivity|].
    split; [by rewrite lookup_insert_eq|].
    split; [by rewrite lookup_insert_ne, lookup_insert_eq by done|].
    split; [by rewrite !lookup_insert_ne, lookup_insert_eq by done|].
    split; [intros _; by rewrite !lookup_insert_ne, lookup_insert_eq by done|].
    intros k ? ? ? Hfull. specialize (Hfull eq_refl).
    by rewrite !lookup_insert_ne by done.
  - eexists. split; [reflexivity|].
    split; [by rewrite lookup_insert_eq|].
    split; [by rewrite lookup_insert_ne, lookup_insert_eq by done|].
    split; [by rewrite !lookup_insert_ne, lookup_insert_eq by done|].
    split; [done|].
    intros k ? ? ? _. by rewrite !lookup_insert_ne by done.
Qed.

End Serialize.

Lemma file_serialize_fields_witness :
  get_version Shelf.b_txt (PyInt 2) false = Ret (Some Shelf.v2) ∧
  ∃ d,
    file_serialize Shelf.no_base 2 Shelf.world Shelf.b_txt true (PyInt 2) = Ret d ∧
    d !! "version" = Some (SInt 2) ∧
    d !! "md5" = Some (SStr "9e107d9d") ∧
    d !! "sha256" = Some SNone ∧
    d !! "fullPath" = Some (SStr "/docs/b.txt").
Proof.
  assert (Hsel : get_version Shelf.b_txt (PyInt 2) false = Ret (Some Shelf.v2))
    by reflexivity.
  split; [exact Hsel|].
  destruct (file_serialize_fields Shelf.no_base 2 Shelf.world Shelf.b_txt true
              (PyInt 2) (Some Shelf.v2) Hsel)
    as (d & Hrun & Hversion & Hmd5 & Hsha & Hfull & _).
  { intros _. eexists. vm_compute. reflexivity. }
  exists d. split; [exact Hrun|]. split; [exact Hversion|].
  split; [exact Hmd5|]. split; [exact Hsha|].
  rewrite (Hfull eq_refl). vm_compute. reflexivity.
Defined.

(** ** Adding and removing tags *)

Lemma list_remove_snoc t l : t ∉ l → list_remove t (l ++ [t]) = l.
Proof.
  induction l as [|x l IH]; intros Hnot; simpl.
  - by rewrite bool_decide_eq_true_2.
  - apply not_elem_of_cons in Hnot as [Hne Hnot].
    rewrite bool_decide_eq_false_2 by done. by rewrite IH.
Qed.

Lemma elem_of_list_remove_ne t t' l :
  t' ≠ t → t' ∈ list_remove t l ↔ t' ∈ l.
Proof.
  intros Hne. induction l as [|x l IH]; simpl; [done|].
  case_bool_decide as Hx.
  - subst x. rewrite elem_of_cons. intuition congruence.
  - rewrite !elem_of_cons, IH. done.
Qed.

Lemma not_elem_of_list_remove t l : NoDup l → t ∉ list_remove t l.
Proof.
  induction 1 as [|x l Hx Hl IH]; simpl; [apply not_elem_of_nil|].
  case_bool_decide as Hxt; [by subst x|].
  apply not_elem_of_cons. split; [congruence|done].
Qed.

Lemma length_list_remove t l :
  t ∈ l → S (length (list_remove t l)) = length l.
Proof.
  induction l as [|x l IH]; simpl; [by intros ?%not_elem_of_nil|].
  case_bool_decide as Hx; [done|].
  intros [?|Hin]%elem_of_cons; [congruence|]. simpl. by rewrite IH.
Qed.

Lemma add_tag_carried fuel self tag user do_save do_log w :
  tag ∈ tags self →
  add_tag fuel self tag user do_save do_log w = (w, Ret (self, false)).
Proof.
  intros Hin. unfold add_tag. by rewrite bool_decide_eq_false_2 by (by intros ?).
Qed.

(** X11: [add_tag] does nothing and answers false when the file already
    carries the tag, whatever the state of the project, and when the
    project is a registration. *)
Theorem add_tag_refused fuel self tag user do_save do_log w :
  tag ∈ tags self ∨
  (∃ project, projects w !! node self = Some project ∧
              is_registration project = true) →
  add_tag fuel self tag user do_save do_log w = (w, Ret (self, false)).
Proof.
  intros [Hin|(project & Hproject & Hreg)]; [by apply add_tag_carried|].
  unfold add_tag, self_node. run.
  case_bool_decide as Hin; [|done]. by rewrite Hproject, Hreg.
Qed.

Lemma add_tag_refused_witness :
  add_tag 3 Sample.a_txt "draft" Sample.alice true true Sample.world
    = (Sample.world, Ret (Sample.a_txt, false)) ∧
  add_tag 3 Sample.a_txt "final" Sample.alice true true Sample.registered_world
    = (Sample.registered_world, Ret (Sample.a_txt, false)).
Proof.
  split.
  - apply add_tag_refused. left. apply list_elem_of_here.
  - apply add_tag_refused. right. exists Sample.registration.
    split; [vm_compute; reflexivity|reflexivity].
Defined.

Lemma add_tag_new fuel self tag user do_save do_log w project :
  projects w !! node self = Some project →
  is_registration project = false →
  tag ∉ tags self →
  (do_log = true → is_Some (materialized_path fuel w self)) →
  ∃ w' self' project',
    add_tag fuel self tag user do_save do_log w = (w', Ret (self', true)) ∧
    tags self' = tags self ++ [tag] ∧
    same_place self' self ∧
    tag ∈ tag_table w' ∧
    (NoDup (tags self) → NoDup (tags self')) ∧
    projects w' !! node self = Some project' ∧
    is_registration project' = false ∧
    length (logs project') = (length (logs project) + if do_log then 1 else 0)%nat ∧
    (do_save = false → nodes w' = nodes w) ∧
    (do_save = true → nodes w' !! _id self = Some self') ∧
    (∀ s l, add_tag fuel self' tag user s l w' = (w', Ret (self', false))).
Proof.
  intros Hproject Hreg Hnot Hpath.
  unfold add_tag at 1. unfold self_node. run.
  rewrite bool_decide_eq_true_2 by done. rewrite Hproject, Hreg. simpl.
  set (self1 := set_tags (tags self ++ [tag]) self).
  assert (Hdup : NoDup (tags self) → NoDup (tags self ++ [tag])).
  { intros Hnd. apply NoDup_app. split; [done|].
    split; [|apply NoDup_singleton].
    intros x Hx ->%list_elem_of_singleton. done. }
  assert (Hagain : ∀ (w' : World) (self' : FileNode),
            tags self' = tags self ++ [tag] →
            ∀ s l, add_tag fuel self' tag user s l w' = (w', Ret (self', false))).
  { intros w' self' Htags s l. apply add_tag_carried.
    rewrite Htags. apply elem_of_app. right. apply list_elem_of_here. }
  destruct do_log.
  - destruct (Hpath eq_refl) as [mp Hmp].
    unfold add_tag_log, self_node, add_log. run.
    change (node self1) with (node self). simpl. rewrite Hproject.
    rewrite (materialized_path_ext fuel _ w self1 self) by done.
    rewrite Hmp.
    destruct do_save.
    + unfold file_save, node_save, base_save. run. simpl.
      eexists _, _, _. split; [reflexivity|]. simpl.
      split; [done|]. split; [done|]. split; [set_solver|]. split; [done|].
      rewrite lookup_alter_eq, Hproject. simpl. split; [done|].
      split; [done|].
      rewrite logs_add_project_log, length_app. simpl.
      split; [done|]. split; [done|].
      split; [intros _; by rewrite lookup_insert_eq|]. by apply Hagain.
    + eexists _, _, _. split; [reflexivity|]. simpl.
      split; [done|]. split; [done|]. split; [set_solver|]. split; [done|].
      rewrite lookup_alter_eq, Hproject. simpl. split; [done|].
      split; [done|].
      rewrite logs_add_project_log, length_app. simpl.
      split; [done|]. split; [done|]. split; [done|]. by apply Hagain.
  - destruct do_save.
    + unfold file_save, node_save, base_save. run. simpl.
      eexists _, _, _. split; [reflexivity|]. simpl.
      split; [done|]. split; [done|]. split; [set_solver|]. split; [done|].
      split; [exact Hproject|]. split; [done|]. split; [lia|]. split; [done|].
      split; [intros _; by rewrite lookup_insert_eq|]. by apply Hagain.
    + eexists _, _, _. split; [reflexivity|]. simpl.
      split; [done|]. split; [done|]. split; [set_solver|]. split; [done|].
      split; [exact Hproject|]. split; [done|]. split; [lia|]. split; [done|].
      split; [done|]. by apply Hagain.
Qed.

(** X12: on a project that is not a registration, [add_tag] of a tag the
    file does not carry answers true, appends the tag and leaves it
    resolvable in the registry; tags stay free of duplicates, the log grows
    by one entry when asked for, and adding the same tag again is refused. *)
Theorem add_tag_attaches fuel self tag user do_save do_log w project :
  projects w !! node self = Some project →
  is_registration project = false →
  tag ∉ tags self →
  (do_log = true → is_Some (materialized_path fuel w self)) →
  ∃ w' self' project',
    add_tag fuel self tag user do_save do_log w = (w', Ret (self', true)) ∧
    tags self' = tags self ++ [tag] ∧
    same_place self' self ∧
    tag ∈ tag_table w' ∧
    (NoDup (tags self) → NoDup (tags self')) ∧
    projects w' !! node self = Some project' ∧
    is_registration project' = false ∧
    length (logs project') = (length (logs project) + if do_log then 1 else 0)%nat ∧
    (do_save = false → nodes w' = nodes w) ∧
    (do_save = true → nodes w' !! _id self = Some self') ∧
    (∀ s l, add_tag fuel self' tag user s l w' = (w', Ret (self', false))).
Proof. apply add_tag_new. Qed.

Lemma add_tag_attaches_witness :
  projects Sample.world !! node Sample.a_txt = Some Sample.project ∧
  ∃ w' self',
    add_tag 3 Sample.a_txt "final" Sample.alice true true Sample.world
      = (w', Ret (self', true)) ∧
    tags self' = ["draft"; "final"] ∧ "final" ∈ tag_table w'.
Proof.
  assert (Hp : projects Sample.world !! node Sample.a_txt = Some Sample.project)
    by (vm_compute; reflexivity).
  split; [exact Hp|].
  destruct (add_tag_attaches 3 Sample.a_txt "final" Sample.alice true true
              Sample.world Sample.project Hp eq_refl)
    as (w' & self' & _ & Hrun & Htags & _ & Hknown & _).
  - intros Hin%list_elem_of_singleton. discriminate.
  - intros _. eexists. vm_compute. reflexivity.
  - by exists w', self'.
Defined.

(** X13: a tag added in memory and removed again leaves the file's tags
    as they were; both calls answer true. *)
Theorem add_tag_remove_tag fuel self tag user do_log do_save' do_log' w project :
  projects w !! node self = Some project →
  is_registration project = false →
  tag ∉ tags self →
  is_Some (materialized_path fuel w self) →
  ∃ w1 self1 w2 self2,
    add_tag fuel self tag user false do_log w = (w1, Ret (self1, true)) ∧
    remove_tag fuel self1 tag user do_save' do_log' w1 = (w2, Ret (self2, true)) ∧
    tags self2 = tags self.
Proof.
  intros Hproject Hreg Hnot Hpath.
  destruct (add_tag_new fuel self tag user false do_log w project
              Hproject Hreg Hnot (λ _, Hpath))
    as (w1 & self1 & project1 & Hadd & Htags & Hplace & Hknown & _ & Hproject1
        & Hreg1 & _ & Hnodes & _).
  destruct Hplace as (_ & Hname & Hparent & Hnode & Hfile).
  rewrite <- Hnode in Hproject1.
  destruct (remove_tag_detaches fuel self1 tag user do_save' do_log' w1 project1
              Hproject1 Hreg1 Hknown)
    as (w2 & self2 & _ & Hremove & Htags2 & _).
  - rewrite Htags. apply elem_of_app. right. apply list_elem_of_here.
  - intros _.
    by rewrite (materialized_path_ext fuel w1 w self1 self) by auto.
  - exists w1, self1, w2, self2.
    split; [done|]. split; [done|].
    rewrite Htags2, Htags. by apply list_remove_snoc.
Qed.

Lemma add_tag_remove_tag_witness :
  projects Sample.world !! node Sample.a_txt = Some Sample.project ∧
  ∃ w1 self1 w2 self2,
    add_tag 3 Sample.a_txt "final" Sample.alice false true Sample.world
      = (w1, Ret (self1, true)) ∧
    remove_tag 3 self1 "final" Sample.alice false true w1
      = (w2, Ret (self2, true)) ∧
    tags self2 = ["draft"].
Proof.
  assert (Hp : projects Sample.world !! node Sample.a_txt = Some Sample.project)
    by (vm_compute; reflexivity).
  split; [exact Hp|].
  apply (add_tag_remove_tag 3 Sample.a_txt "final" Sample.alice true false true
           Sample.world Sample.project Hp eq_refl).
  - intros Hin%list_elem_of_singleton. discriminate.
  - eexists. vm_compute. reflexivity.
Defined.

(** X14: on duplicate-free tags, a successful [remove_tag] leaves the file
    without the tag and with every other tag, one tag fewer in all. *)
Theorem remove_tag_exactly fuel self tag user do_save do_log w project :
  projects w !! node self = Some project →
  is_registration project = false →
  tag ∈ tag_table w → tag ∈ tags self → NoDup (tags self) →
  (do_log = true → is_Some (materialized_path fuel w self)) →
  ∃ w' self',
    remove_tag fuel self tag user do_save do_log w = (w', Ret (self', true)) ∧
    (tag ∉ tags self') ∧
    (∀ t, t ≠ tag → t ∈ tags self' ↔ t ∈ tags self) ∧
    S (length (tags self')) = length (tags self).
Proof.
  intros Hproject Hreg Hknown Hin Hnodup Hpath.
  destruct (remove_tag_detaches fuel self tag user do_save do_log w project
              Hproject Hreg Hknown Hin Hpath)
    as (w' & self' & _ & Hrun & Htags & _).
  exists w', self'. split; [done|]. rewrite Htags.
  split; [by apply not_elem_of_list_remove|].
  split; [intros t Ht; by apply elem_of_list_remove_ne|].
  by apply length_list_remove.
Qed.

Lemma remove_tag_exactly_witness :
  projects Sample.world !! node Sample.a_txt = Some Sample.project ∧
  NoDup (tags Sample.a_txt) ∧
  ∃ w' self',
    remove_tag 3 Sample.a_txt "draft" Sample.alice false false Sample.world
      = (w', Ret (self', true)) ∧
    ("draft" ∉ tags self').
Proof.
  assert (Hp : projects Sample.world !! node Sample.a_txt = Some Sample.project)
    by (vm_compute; reflexivity).
  assert (Hnd : NoDup (tags Sample.a_txt)) by apply NoDup_singleton.
  split; [exact Hp|]. split; [exact Hnd|].
  assert (Hknown : "draft" ∈ tag_table Sample.world).
  { change ("draft" ∈ ({[ "draft" ]} : gset string)). by apply elem_of_singleton_2. }
  assert (Hin : "draft" ∈ tags Sample.a_txt) by apply list_elem_of_here.
  assert (Hpath : false = true → is_Some (materialized_path 3 Sample.world Sample.a_txt))
    by (intros [=]).
  destruct (remove_tag_exactly 3 Sample.a_txt "draft" Sample.alice false false
              Sample.world Sample.project Hp eq_refl Hknown Hin Hnd Hpath)
    as (w' & self' & Hrun & Hgone & _).
  by exists w', self'.
Defined.

(** With a duplicate, one occurrence goes and the tag stays. *)
Lemma list_remove_duplicate :
  list_remove "a" ["a"; "b"; "a"] = ["b"; "a"].
Proof. reflexivity. Qed.

(** ** Checking out and in again *)

Lemma set_checkout_back self held :
  checkout self = None → set_checkout None (set_checkout held self) = self.
Proof. destruct self. simpl. by intros ->. Qed.

(** X15: on a file that is not checked out, a write-permitted user who
    checks it out and in again, without saving, gets the file back as it
    was; the project's log has gained a check-out entry followed by a
    check-in entry, both by that user, and the tree table is untouched. *)
Theorem check_out_check_in fuel self user w project :
  projects w !! node self = Some project →
  is_file self = true →
  checkout self = None →
  WRITE ∈ get_permissions project user →
  is_Some (materialized_path fuel w self) →
  ∃ w1 self1 w2 project2 out_entry in_entry,
    check_in_or_out fuel self user (Some user) false w = (w1, Ret self1) ∧
    checkout self1 = Some user ∧
    check_in_or_out fuel self1 user None false w1 = (w2, Ret self) ∧
    projects w2 !! node self = Some project2 ∧
    logs project2 = logs project ++ [out_entry; in_entry] ∧
    action out_entry = CHECKED_OUT ∧ action in_entry = CHECKED_IN ∧
    auth out_entry = user ∧ auth in_entry = user ∧
    nodes w2 = nodes w.
Proof.
  intros Hproject Hfile Hfree Hwrite [mp Hmp].
  assert (Hb : is_checked_out fuel w self = Some false).
  { unfold is_checked_out, node_is_checked_out. rewrite Hfile, Hfree.
    by rewrite bool_decide_eq_false_2 by (by intros ?). }
  pose proof (check_in_or_out_run fuel self user (Some user) false w project
                false Hproject Hb) as Hout.
  rewrite Hmp in Hout. simpl in Hout.
  rewrite (bool_decide_eq_false_2 (WRITE ∉ _)) in Hout by (by intros ?).
  simpl in Hout.
  set (self1 := set_checkout (Some user) self) in *.
  match type of Hout with
  | _ = (?w', _) => set (w1 := w') in *
  end.
  assert (Hproject1 : projects w1 !! node self1 = Some (add_project_log
            (mkNodeLog CHECKED_OUT (checkout_log_params self1 project mp) user)
            project)).
  { subst w1. simpl. by rewrite lookup_alter_eq, Hproject. }
  assert (Hb1 : is_checked_out fuel w1 self1 = Some true)
    by (by apply (is_checked_out_held fuel w1 self1 user)).
  eexists w1, self1, _, _, _, _.
  split; [exact Hout|]. split; [done|]. split.
  { rewrite (check_in_or_out_run fuel self1 user None false w1 _ true
               Hproject1 Hb1).
    rewrite (materialized_path_ext fuel w1 w self1 self) by done.
    rewrite Hmp.
    change (get_permissions (add_project_log _ project) user)
      with (get_permissions project user).
    change (checkout self1) with (Some user).
    destruct (_ || _) eqn:Hrefused.
    { apply refused_iff in Hrefused as [Hno|(_ & Hother & _)]; done. }
    simpl. unfold self1.
    rewrite (set_checkout_back self (Some user) Hfree). reflexivity. }
  simpl. rewrite lookup_alter_eq, lookup_alter_eq, Hproject. simpl.
  split; [reflexivity|].
  rewrite !logs_add_project_log, <- app_assoc. by repeat split.
Qed.

Lemma check_out_check_in_witness :
  projects Sample.world_free !! node Sample.a_txt_free = Some Sample.project ∧
  ∃ w1 self1 w2,
    check_in_or_out 3 Sample.a_txt_free Sample.alice (Some Sample.alice) false
      Sample.world_free = (w1, Ret self1) ∧
    check_in_or_out 3 self1 Sample.alice None false w1
      = (w2, Ret Sample.a_txt_free) ∧
    nodes w2 = nodes Sample.world_free.
Proof.
  assert (Hp : projects Sample.world_free !! node Sample.a_txt_free
               = Some Sample.project) by (vm_compute; reflexivity).
  split; [exact Hp|].
  destruct (check_out_check_in 3 Sample.a_txt_free Sample.alice Sample.world_free
              Sample.project Hp eq_refl eq_refl)
    as (w1 & self1 & w2 & _ & _ & _ & Hout & _ & Hin & _ & _ & _ & _ & _ & _ & Hnodes).
  - vm_compute. apply list_elem_of_further, list_elem_of_here.
  - eexists. vm_compute. reflexivity.
  - by exists w1, self1, w2.
Defined.



(** ** Deleting a checked-out file *)

(** X17: deleting a checked-out file that is not the preprint's primary
    file fails with the checkout conflict after the file has been removed
    from the search index, and that removal is all that happened. *)
Theorem delete_checked_out_file_unindexed fuel self user new_parent w project :
  projects w !! node self = Some project →
  is_file self = true →
  preprint_file project ≠ Some (_id self) →
  is_Some (checkout self) →
  delete fuel self user new_parent w =
    (record (EvSearchUpdate (_id self) true) w, Raise FileNodeCheckedOutError).
Proof.
  intros Hproject Hfile Hpreprint [holder Hheld].
  rewrite delete_unfold.
  rewrite (delete_with_guard _ fuel self new_parent w project true Hproject
             (is_checked_out_held fuel w self holder Hheld)).
  unfold at_delete_guard. by rewrite Hfile, bool_decide_eq_false_2.
Qed.

Lemma delete_checked_out_file_unindexed_witness :
  projects Sample.world !! node Sample.a_txt = Some Sample.project ∧
  ∃ w',
    delete 3 Sample.a_txt (Some Sample.alice) None Sample.world
      = (w', Raise FileNodeCheckedOutError) ∧
    trace w' = [EvSearchUpdate "f" true] ∧
    nodes w' = nodes Sample.world.
Proof.
  assert (Hp : projects Sample.world !! node Sample.a_txt = Some Sample.project)
    by (vm_compute; reflexivity).
  split; [exact Hp|].
  eexists. split.
  - apply (delete_checked_out_file_unindexed 3 Sample.a_txt (Some Sample.alice)
             None Sample.world Sample.project Hp eq_refl); [done|by eexists].
  - by split.
Defined.

(** ** Saving and loading *)

(** X18: after [save] the row loaded under the node's key is the node with
    both stored path fields blank, every other row is as before, and the
    trace has gained the save, followed for a file by the search index
    update. *)
Theorem save_then_load self w :
  ∃ w',
    save self w = (w', Ret (clear_stored_paths self)) ∧
    load w' (_id self) = Some (clear_stored_paths self) ∧
    (∀ pk, pk ≠ _id self → load w' pk = load w pk) ∧
    projects w' = projects w ∧ trash w' = trash w ∧
    trace w' = trace w ++ EvSaveFileNode (clear_stored_paths self)
               :: (if is_file self then [EvSearchUpdate (_id self) false] else []).
Proof.
  unfold save, file_save, node_save, base_save, load. run.
  destruct (is_file self); simpl; eexists; (split; [reflexivity|]); simpl;
    rewrite lookup_insert_eq; (split; [done|]);
    (split; [intros pk Hpk; by rewrite lookup_insert_ne|]);
    by rewrite <- ?app_assoc.
Qed.
